(** * Rupture: the two elasticity drivers of [utils_9_11/elastic_solver.py]

    The module holds two near-duplicate driver functions,
    [solve_elasticity_devoir] and [solve_elasticity_devoir_force].  Each one
    threads its scalar arguments through an external finite-element
    framework: a mesh generator, function spaces, geometric location of
    boundary entities, a symbolic weak-form layer, a linear solver and a
    scalar assembly.

    The embedding keeps three layers apart, as the code does:
    - Python numbers are exact rationals ([Q]); rounding of floats is not
      modelled, but Python's [ZeroDivisionError] on a zero divisor is;
    - framework objects that only package their arguments (a Dirichlet
      condition, a constant, a measure, mesh tags, a sub-space, a symbolic
      expression) are the records and terms they build;
    - framework calls that compute from data the code never sees (mesh
      generation, entity and dof location, the linear problem, the solve,
      form compilation, assembly, printing, attribute writes on framework
      objects) are events of a program tree, answered by an arbitrary
      handler that may also raise. *)

From Stdlib Require Import QArith Qabs Lqa ZArith List String.
From stdpp Require Import base option list strings gmap.

Local Open Scope string_scope.
Local Open Scope Q_scope.
Local Open Scope list_scope.

(** ** Python numbers *)

(** Exceptions that can reach the caller: the built-in raised by Python's own
    [/], and whatever class the external framework raises. *)
Inductive exn : Type :=
| ZeroDivisionError
| ExternalError (cls : string).

(** Python's true division [a / b]: raises [ZeroDivisionError] when the
    divisor is zero. *)
Definition py_div (a b : Q) : exn + Q :=
  if Qeq_bool b 0 then inl ZeroDivisionError else inr (a / b).

(** ** The numpy calls used by the geometric markers *)

(** Coordinates handed to a marker: an array of shape (3, N); [x[0]] and
    [x[1]] are its first two rows. *)
Record coords : Type := Coords { row0 : list Q; row1 : list Q; row2 : list Q }.

(** Default tolerances of [numpy.isclose]. *)
Definition rtol : Q := 1 # 100000.
Definition atol : Q := 1 # 100000000.

(** [numpy.isclose(a, b)] on one entry: [|a - b| <= atol + rtol * |b|]. *)
Definition isclose1 (a b : Q) : bool :=
  Qle_bool (Qabs (a - b)) (atol + rtol * Qabs b).

(** [numpy.isclose(a, b)] for an array [a] and a scalar [b]. *)
Definition isclose (a : list Q) (b : Q) : list bool :=
  map (fun ai => isclose1 ai b) a.

(** [a > b] for an array [a] and a scalar [b]. *)
Definition np_gt (a : list Q) (b : Q) : list bool :=
  map (fun ai => negb (Qle_bool ai b)) a.

(** [numpy.logical_and] on two arrays of the same length. *)
Definition logical_and (a b : list bool) : list bool :=
  zip_with andb a b.

(** ** Objects of the external framework *)

(** A mesh is known to the code only as a reference returned by the mesh
    generator. *)
Record Mesh : Type := MeshRef { mesh_id : nat }.

(** Mesh tags are either returned by the mesh generator (a reference) or
    built by [mesh.meshtags(msh, dim, entities, value)]. *)
Inductive MeshTags : Type :=
| MeshTagsRef (id : nat)
| MeshTagsOf (msh : Mesh) (dim : Z) (entities : list nat) (value : Z).

(** A function space is returned by [fem.functionspace] (a reference) or is
    the sub-space [V.sub(i)] of another one. *)
Inductive FunctionSpace : Type :=
| FunctionSpaceRef (id : nat)
| SubSpace (V : FunctionSpace) (i : nat).

(** A finite-element function, as returned by [problem.solve()]. *)
Record FEFunction : Type := FEFunctionRef { function_id : nat }.

(** What [fem.dirichletbc(value, dofs, V)] packages. *)
Record DirichletBC : Type :=
  { bc_value : Q; bc_dofs : list nat; bc_space : FunctionSpace }.

(** What [fem.Constant(msh, c)] packages. *)
Record FEConstant : Type := { const_mesh : Mesh; const_value : list Q }.

Record LinearProblem : Type := LinearProblemRef { problem_id : nat }.
Record CompiledForm : Type := CompiledFormRef { form_id : nat }.

(** [ScalarType] of petsc4py converts a Python number, or a tuple of
    numbers, to the scalar type of the solver. *)
Definition ScalarType (x : Q) : Q := x.
Definition ScalarType2 (x : Q * Q) : list Q := [x.1; x.2].

(** ** The symbolic weak-form layer *)

Module ufl.

(** An integration measure: ["dx"] or ["ds"], optionally tied to a mesh,
    to mesh tags, and restricted to the entities carrying one tag. *)
Record Measure : Type :=
  { integral_type : string;
    domain : option Mesh;
    subdomain_data : option MeshTags;
    subdomain_id : option Z }.

(** [ufl.Measure(name, domain=..., subdomain_data=...)]. *)
Definition mkMeasure (name : string) (dom : option Mesh)
    (data : option MeshTags) : Measure :=
  {| integral_type := name; domain := dom; subdomain_data := data;
     subdomain_id := None |}.

(** [ds(i)]: the same measure restricted to the tag [i]. *)
Definition restrict (m : Measure) (i : Z) : Measure :=
  {| integral_type := integral_type m; domain := domain m;
     subdomain_data := subdomain_data m; subdomain_id := Some i |}.

(** Symbolic expressions.  The leaves are the trial and test functions of
    a space, a finite-element function used as a coefficient, and a
    constant. *)
Inductive Expr : Type :=
| TrialFunction (V : FunctionSpace)
| TestFunction (V : FunctionSpace)
| Coefficient (f : FEFunction)
| Constant (c : FEConstant)
| Grad (e : Expr)
| Sym (e : Expr)
| Tr (e : Expr)
| Identity (n : nat)
| Inner (a b : Expr)
| Dot (a b : Expr)
| Scale (c : Q) (e : Expr)
| Mul (a b : Expr)
| Add (a b : Expr).

(** Forms: an integrand times a measure, and sums, differences and
    scalar multiples of forms. *)
Inductive Form : Type :=
| Integral (integrand : Expr) (m : Measure)
| FormAdd (F G : Form)
| FormSub (F G : Form)
| FormScale (c : Q) (F : Form).

Definition grad : Expr -> Expr := Grad.
Definition sym : Expr -> Expr := Sym.
Definition tr : Expr -> Expr := Tr.
Definition inner : Expr -> Expr -> Expr := Inner.
Definition dot : Expr -> Expr -> Expr := Dot.

End ufl.

Coercion ufl.Coefficient : FEFunction >-> ufl.Expr.
Coercion ufl.Constant : FEConstant >-> ufl.Expr.

Declare Scope ufl_scope.
Delimit Scope ufl_scope with ufl.
Bind Scope ufl_scope with ufl.Expr.
Notation "c *. e" := (ufl.Scale c e) (at level 40, left associativity) : ufl_scope.
Notation "a * b" := (ufl.Mul a b) : ufl_scope.
Notation "a + b" := (ufl.Add a b) : ufl_scope.

Declare Scope form_scope.
Delimit Scope form_scope with form.
Bind Scope form_scope with ufl.Form.
Notation "e *@ m" := (ufl.Integral e m) (at level 40, left associativity) : form_scope.
Notation "c *. F" := (ufl.FormScale c F) : form_scope.
Notation "F + G" := (ufl.FormAdd F G) : form_scope.
Notation "F - G" := (ufl.FormSub F G) : form_scope.

(** ** Calls into the framework *)

(** A piece of an f-string: literal text, or a number with its format
    specification. *)
Inductive fragment : Type :=
| Lit (s : string)
| Fmt (spec : string) (x : Q).

(** The calls whose answer the code cannot compute itself.  The index is the
    type of the answer. *)
Inductive request : Type -> Type :=
| GenerateMeshWithCrack
    (Lcrack Lx Ly lc refinement_ratio dist_min dist_max verbosity : Q)
    : request (Mesh * MeshTags * MeshTags)
| NewFunctionSpace (msh : Mesh) (element : string * Z * list Z)
    : request FunctionSpace
| TopologyDim (msh : Mesh) : request Z
| LocateEntitiesBoundary (msh : Mesh) (dim : Z) (marker : coords -> list bool)
    : request (list nat)
| LocateDofsTopological (V : FunctionSpace) (entity_dim : Z)
    (entities : list nat) : request (list nat)
| NewLinearProblem (a L : ufl.Form) (bcs : list DirichletBC)
    (petsc_options : gmap string string) : request LinearProblem
| Solve (problem : LinearProblem) : request FEFunction
| SetName (f : FEFunction) (name : string) : request unit
| CompileForm (F : ufl.Form) : request CompiledForm
| AssembleScalar (M : CompiledForm) : request Q
| Print (msg : list fragment) : request unit.

(** The name of the called function, without its arguments. *)
Inductive api : Type :=
| api_generate_mesh_with_crack
| api_functionspace
| api_topology_dim
| api_locate_entities_boundary
| api_locate_dofs_topological
| api_LinearProblem
| api_solve
| api_set_name
| api_form
| api_assemble_scalar
| api_print.

Definition api_of {X : Type} (c : request X) : api :=
  match c with
  | GenerateMeshWithCrack _ _ _ _ _ _ _ _ => api_generate_mesh_with_crack
  | NewFunctionSpace _ _ => api_functionspace
  | TopologyDim _ => api_topology_dim
  | LocateEntitiesBoundary _ _ _ => api_locate_entities_boundary
  | LocateDofsTopological _ _ _ => api_locate_dofs_topological
  | NewLinearProblem _ _ _ _ => api_LinearProblem
  | Solve _ => api_solve
  | SetName _ _ => api_set_name
  | CompileForm _ => api_form
  | AssembleScalar _ => api_assemble_scalar
  | Print _ => api_print
  end.

#[global] Instance api_eq_dec : EqDecision api.
Proof. solve_decision. Defined.

(** ** Programs *)

(** A Python function body as a tree: it returns, raises, calls the
    framework and goes on with the answer, or rebinds a module-level name. *)
Inductive prog (R : Type) : Type :=
| Ret (r : R)
| Raise (e : exn)
| Call {X : Type} (c : request X) (k : X -> prog R)
| GlobalAssign (name : string) (value : string) (k : prog R).

Arguments Ret {R} r.
Arguments Raise {R} e.
Arguments Call {R X} c k.
Arguments GlobalAssign {R} name value k.

Fixpoint bind {A B : Type} (p : prog A) (f : A -> prog B) : prog B :=
  match p with
  | Ret r => f r
  | Raise e => Raise e
  | Call c k => Call c (fun x => bind (k x) f)
  | GlobalAssign n v k => GlobalAssign n v (bind k f)
  end.

Declare Scope prog_scope.
Delimit Scope prog_scope with prog.
Bind Scope prog_scope with prog.
Notation "x <- p ;; q" := (bind p (fun x => q))
  (at level 20, p at level 99, q at level 200) : prog_scope.
Notation "' pat <- p ;; q" := (bind p (fun pat => q))
  (at level 20, pat pattern, p at level 99, q at level 200) : prog_scope.
Open Scope prog_scope.

(** One framework call, returning its answer. *)
Definition call {X : Type} (c : request X) : prog X := Call c Ret.

(** A Python arithmetic result: the value, or the exception raised. *)
Definition lift {A : Type} (r : exn + A) : prog A :=
  match r with
  | inl e => Raise e
  | inr x => Ret x
  end.

(** ** Running a program against the framework *)

(** The module-level names and what each is bound to. *)
Abbreviation namespace := (gmap string string).

(** One executed call and its outcome. *)
Record entry : Type :=
  Entry { entry_type : Type;
          entry_call : request entry_type;
          entry_outcome : exn + entry_type }.

Arguments Entry {entry_type} entry_call entry_outcome.

Definition entry_api (c : entry) : api := api_of (entry_call c).

Definition entry_failed (c : entry) : option exn :=
  match entry_outcome c with
  | inl e => Some e
  | inr _ => None
  end.

(** The framework: every call is answered from the framework's own state
    [W], by a value or by an exception. *)
Definition handler (W : Type) : Type :=
  forall X : Type, request X -> W -> (exn + X) * W.

Record result (W R : Type) : Type :=
  Result { outcome : exn + R;
           globals : namespace;
           world : W;
           trace : list entry }.

Arguments Result {W R} outcome globals world trace.
Arguments outcome {W R} r.
Arguments globals {W R} r.
Arguments world {W R} r.
Arguments trace {W R} r.

Definition log {W R : Type} (c : entry) (r : result W R) : result W R :=
  Result (outcome r) (globals r) (world r) (c :: trace r).

(** An exception of a call ends the run at once and is the outcome: there is
    no handler in the language. *)
Fixpoint run {W R : Type} (h : handler W) (p : prog R) (g : namespace) (w : W)
    : result W R :=
  match p with
  | Ret r => Result (inr r) g w []
  | Raise e => Result (inl e) g w []
  | Call c k =>
      match h _ c w with
      | (inl e, w') => Result (inl e) g w' [Entry c (inl e)]
      | (inr x, w') => log (Entry c (inr x)) (run h (k x) g w')
      end
  | GlobalAssign n v k => run h k (<[n := v]> g) w
  end.

(** ** The imported names, as the code spells them *)

Definition generate_mesh_with_crack
    (Lcrack Lx Ly lc refinement_ratio dist_min dist_max verbosity : Q)
    : prog (Mesh * MeshTags * MeshTags) :=
  call (GenerateMeshWithCrack Lcrack Lx Ly lc refinement_ratio
          dist_min dist_max verbosity).

(** [msh.topology.dim] *)
Definition topology_dim (msh : Mesh) : prog Z := call (TopologyDim msh).

(** [V.sub(i)] *)
Definition sub (V : FunctionSpace) (i : nat) : FunctionSpace := SubSpace V i.

(** [problem.solve()] *)
Definition solve (problem : LinearProblem) : prog FEFunction :=
  call (Solve problem).

(** [uh.name = name] *)
Definition set_name (uh : FEFunction) (name : string) : prog unit :=
  call (SetName uh name).

Definition print (msg : list fragment) : prog unit := call (Print msg).

Module mesh.

Definition locate_entities_boundary (msh : Mesh) (dim : Z)
    (marker : coords -> list bool) : prog (list nat) :=
  call (LocateEntitiesBoundary msh dim marker).

Definition meshtags (msh : Mesh) (dim : Z) (entities : list nat) (value : Z)
    : MeshTags :=
  MeshTagsOf msh dim entities value.

End mesh.

Module fem.

Definition functionspace (msh : Mesh) (element : string * Z * list Z)
    : prog FunctionSpace :=
  call (NewFunctionSpace msh element).

Definition locate_dofs_topological (V : FunctionSpace) (entity_dim : Z)
    (entities : list nat) : prog (list nat) :=
  call (LocateDofsTopological V entity_dim entities).

Definition dirichletbc (value : Q) (dofs : list nat) (V : FunctionSpace)
    : DirichletBC :=
  {| bc_value := value; bc_dofs := dofs; bc_space := V |}.

Definition Constant (msh : Mesh) (c : list Q) : FEConstant :=
  {| const_mesh := msh; const_value := c |}.

(** [fem.petsc.LinearProblem(a, L, bcs=..., petsc_options=...)] *)
Definition LinearProblem (a L : ufl.Form) (bcs : list DirichletBC)
    (petsc_options : gmap string string) : prog LinearProblem :=
  call (NewLinearProblem a L bcs petsc_options).

Definition form (F : ufl.Form) : prog CompiledForm := call (CompileForm F).

Definition assemble_scalar (M : CompiledForm) : prog Q :=
  call (AssembleScalar M).

End fem.

(** The value every driver returns: [(uh, energy, sigma_ufl)]. *)
Abbreviation solution := (FEFunction * Q * ufl.Expr)%type.

(** ** [solve_elasticity_devoir] *)

(** The functions nested in the body close over [Lcrack], [Ly], [mu],
    [lmbda], [dx], [ds], [msh] and [load]; here they take them as
    arguments. *)
Module Devoir.

Definition bottom_no_crack (Lcrack : Q) (x : coords) : list bool :=
  logical_and (isclose (row1 x) 0) (np_gt (row0 x) Lcrack).

Definition top (Ly : Q) (x : coords) : list bool :=
  isclose (row1 x) Ly.

(** Strain *)
Definition eps (u : ufl.Expr) : ufl.Expr :=
  ufl.sym (ufl.grad u).

(** Stress *)
Definition sigma (mu lmbda : Q) (eps : ufl.Expr) : ufl.Expr :=
  ((2 * mu) *. eps + (lmbda *. ufl.tr eps) * ufl.Identity 2)%ufl.

(** The bilinear form of the weak formulation *)
Definition a (mu lmbda : Q) (dx : ufl.Measure) (u v : ufl.Expr) : ufl.Form :=
  (ufl.inner (sigma mu lmbda (eps u)) (eps v) *@ dx)%form.

(** The linear form of the weak formulation *)
Definition L (msh : Mesh) (load : Q) (dx ds : ufl.Measure) (v : ufl.Expr)
    : ufl.Form :=
  (* Volume force *)
  let b := fem.Constant msh (ScalarType2 (0, 0)) in
  (* Surface force on the top *)
  let f := fem.Constant msh (ScalarType2 (0, load)) in
  (ufl.dot b v *@ dx + ufl.dot f v *@ ufl.restrict ds 1)%form.

Definition solve_elasticity_devoir
    (nu E load Lx Ly Lcrack lc refinement_ratio dist_min dist_max
     verbosity delta_L : Q) : prog solution :=
  '(msh, mt, ft) <- generate_mesh_with_crack Lcrack Lx Ly lc
                      refinement_ratio dist_min dist_max verbosity;;
  V <- fem.functionspace msh ("Lagrange", 1%Z, [2%Z]);;
  dim <- topology_dim msh;;
  bottom_no_crack_facets <-
    mesh.locate_entities_boundary msh (dim - 1)%Z (bottom_no_crack Lcrack);;
  dim <- topology_dim msh;;
  bottom_no_crack_dofs_y <-
    fem.locate_dofs_topological (sub V 1) (dim - 1)%Z bottom_no_crack_facets;;
  dim <- topology_dim msh;;
  top_facets <- mesh.locate_entities_boundary msh (dim - 1)%Z (top Ly);;
  dim <- topology_dim msh;;
  top_dofs_y <- fem.locate_dofs_topological (sub V 1) (dim - 1)%Z top_facets;;
  let bc_bottom :=
    fem.dirichletbc (ScalarType 0) bottom_no_crack_dofs_y (sub V 1) in
  let bc_top := fem.dirichletbc (ScalarType delta_L) top_dofs_y (sub V 1) in
  let bcs := [bc_bottom; bc_top] in
  let dx := ufl.mkMeasure "dx" (Some msh) None in
  top_facets <-
    mesh.locate_entities_boundary msh 1%Z (fun x => isclose (row1 x) Ly);;
  let mt := mesh.meshtags msh 1%Z top_facets 1%Z in
  let ds := ufl.mkMeasure "ds" None (Some mt) in
  let u := ufl.TrialFunction V in
  let v := ufl.TestFunction V in
  mu <- lift (py_div E (2 * (1 + nu)));;
  lmbda <- lift (py_div (E * nu) ((1 + nu) * (1 - 2 * nu)));;
  problem <- fem.LinearProblem (a mu lmbda dx u v) (L msh load dx ds v) bcs
              {[ "ksp_type" := "preonly"; "pc_type" := "lu" ]};;
  uh <- solve problem;;
  'tt <- set_name uh "displacement";;
  M <- fem.form ((1 # 2) *. a mu lmbda dx uh uh - L msh load dx ds uh)%form;;
  energy <- fem.assemble_scalar M;;
  'tt <- print [Lit "The potential energy for Lcrack="; Fmt "2.3e" Lcrack;
               Lit " is "; Fmt "2.3e" energy];;
  let sigma_ufl := sigma mu lmbda (eps uh) in
  Ret (uh, energy, sigma_ufl).

End Devoir.

(** ** [solve_elasticity_devoir_force] *)

Module DevoirForce.

Definition bottom_no_crack (Lcrack : Q) (x : coords) : list bool :=
  logical_and (isclose (row1 x) 0) (np_gt (row0 x) Lcrack).

Definition top (Ly : Q) (x : coords) : list bool :=
  isclose (row1 x) Ly.

(** Strain *)
Definition eps (u : ufl.Expr) : ufl.Expr :=
  ufl.sym (ufl.grad u).

(** Stress *)
Definition sigma (mu lmbda : Q) (eps : ufl.Expr) : ufl.Expr :=
  ((2 * mu) *. eps + (lmbda *. ufl.tr eps) * ufl.Identity 2)%ufl.

(** The bilinear form of the weak formulation *)
Definition a (mu lmbda : Q) (dx : ufl.Measure) (u v : ufl.Expr) : ufl.Form :=
  (ufl.inner (sigma mu lmbda (eps u)) (eps v) *@ dx)%form.

(** The linear form of the weak formulation *)
Definition L (msh : Mesh) (load : Q) (dx ds : ufl.Measure) (v : ufl.Expr)
    : ufl.Form :=
  (* Volume force *)
  let b := fem.Constant msh (ScalarType2 (0, 0)) in
  (* Surface force on the top *)
  let f := fem.Constant msh (ScalarType2 (0, load)) in
  (ufl.dot b v *@ dx + ufl.dot f v *@ ufl.restrict ds 1)%form.

Definition solve_elasticity_devoir_force
    (nu E load Lx Ly Lcrack lc refinement_ratio dist_min dist_max
     verbosity delta_L : Q) : prog solution :=
  '(msh, mt, ft) <- generate_mesh_with_crack Lcrack Lx Ly lc
                      refinement_ratio dist_min dist_max verbosity;;
  V <- fem.functionspace msh ("Lagrange", 1%Z, [2%Z]);;
  dim <- topology_dim msh;;
  bottom_no_crack_facets <-
    mesh.locate_entities_boundary msh (dim - 1)%Z (bottom_no_crack Lcrack);;
  dim <- topology_dim msh;;
  bottom_no_crack_dofs_y <-
    fem.locate_dofs_topological (sub V 1) (dim - 1)%Z bottom_no_crack_facets;;
  dim <- topology_dim msh;;
  top_facets <- mesh.locate_entities_boundary msh (dim - 1)%Z (top Ly);;
  dim <- topology_dim msh;;
  top_dofs_y <- fem.locate_dofs_topological (sub V 1) (dim - 1)%Z top_facets;;
  let bc_bottom :=
    fem.dirichletbc (ScalarType 0) bottom_no_crack_dofs_y (sub V 1) in
  let bc_top := fem.dirichletbc (ScalarType delta_L) top_dofs_y (sub V 1) in
  let bcs := [bc_bottom] in
  let dx := ufl.mkMeasure "dx" (Some msh) None in
  top_facets <-
    mesh.locate_entities_boundary msh 1%Z (fun x => isclose (row1 x) Ly);;
  let mt := mesh.meshtags msh 1%Z top_facets 1%Z in
  let ds := ufl.mkMeasure "ds" None (Some mt) in
  let u := ufl.TrialFunction V in
  let v := ufl.TestFunction V in
  mu <- lift (py_div E (2 * (1 + nu)));;
  lmbda <- lift (py_div (E * nu) ((1 + nu) * (1 - 2 * nu)));;
  problem <- fem.LinearProblem (a mu lmbda dx u v) (L msh load dx ds v) bcs
              {[ "ksp_type" := "preonly"; "pc_type" := "lu" ]};;
  uh <- solve problem;;
  'tt <- set_name uh "displacement";;
  M <- fem.form ((1 # 2) *. a mu lmbda dx uh uh - L msh load dx ds uh)%form;;
  energy <- fem.assemble_scalar M;;
  'tt <- print [Lit "The potential energy for Lcrack="; Fmt "2.3e" Lcrack;
               Lit " is "; Fmt "2.3e" energy];;
  let sigma_ufl := sigma mu lmbda (eps uh) in
  Ret (uh, energy, sigma_ufl).

End DevoirForce.

(** ** Both drivers at once *)

Inductive driver : Type := devoir | devoir_force.

Definition body (d : driver)
    : Q -> Q -> Q -> Q -> Q -> Q -> Q -> Q -> Q -> Q -> Q -> Q -> prog solution :=
  match d with
  | devoir => Devoir.solve_elasticity_devoir
  | devoir_force => DevoirForce.solve_elasticity_devoir_force
  end.

(** The default of [delta_L] is the one default the two signatures do not
    share. *)
Definition default_delta_L (d : driver) : Q :=
  match d with
  | devoir => 700 * (1 # 1000000)
  | devoir_force => 0
  end.

(** A call that passes no argument. *)
Definition with_defaults (d : driver) : prog solution :=
  body d (4 # 10) 3000000000 0 (10 / 100) (45 / 2 / 100) (10 / 1000)
    (9 # 1000) 10 (3 # 100) (5 # 100) 10 (default_delta_L d).

(** The module-level names bound when the module has been imported. *)
Definition module_globals : namespace :=
  list_to_map
    [("sys", "sys"); ("plt", "matplotlib.pyplot"); ("np", "numpy");
     ("fem", "dolfinx.fem"); ("mesh", "dolfinx.mesh"); ("io", "dolfinx.io");
     ("plot", "dolfinx.plot"); ("ufl", "ufl"); ("MPI", "mpi4py.MPI");
     ("PETSc", "petsc4py.PETSc"); ("ScalarType", "petsc4py.PETSc.ScalarType");
     ("generate_mesh_with_crack", "meshes.generate_mesh_with_crack");
     ("solve_elasticity_devoir", "def solve_elasticity_devoir");
     ("solve_elasticity_devoir_force", "def solve_elasticity_devoir_force")].

(** ** The common call sequence *)

(** The one call sequence both drivers instantiate.  Its parameter says which
    of the two Dirichlet conditions, bottom and top, are applied; it is used
    for the [bcs] of the linear problem and nowhere else. *)
Definition call_sequence
    (applied : DirichletBC -> DirichletBC -> list DirichletBC)
    (nu E load Lx Ly Lcrack lc refinement_ratio dist_min dist_max
     verbosity delta_L : Q) : prog solution :=
  (* mesh generation *)
  '(msh, mt, ft) <- generate_mesh_with_crack Lcrack Lx Ly lc
                      refinement_ratio dist_min dist_max verbosity;;
  (* function space *)
  V <- fem.functionspace msh ("Lagrange", 1%Z, [2%Z]);;
  (* dof location *)
  dim <- topology_dim msh;;
  bottom_no_crack_facets <-
    mesh.locate_entities_boundary msh (dim - 1)%Z
      (Devoir.bottom_no_crack Lcrack);;
  dim <- topology_dim msh;;
  bottom_no_crack_dofs_y <-
    fem.locate_dofs_topological (sub V 1) (dim - 1)%Z bottom_no_crack_facets;;
  dim <- topology_dim msh;;
  top_facets <- mesh.locate_entities_boundary msh (dim - 1)%Z (Devoir.top Ly);;
  dim <- topology_dim msh;;
  top_dofs_y <- fem.locate_dofs_topological (sub V 1) (dim - 1)%Z top_facets;;
  let bc_bottom :=
    fem.dirichletbc (ScalarType 0) bottom_no_crack_dofs_y (sub V 1) in
  let bc_top := fem.dirichletbc (ScalarType delta_L) top_dofs_y (sub V 1) in
  (* form definitions *)
  let dx := ufl.mkMeasure "dx" (Some msh) None in
  top_facets <-
    mesh.locate_entities_boundary msh 1%Z (fun x => isclose (row1 x) Ly);;
  let ds :=
    ufl.mkMeasure "ds" None (Some (mesh.meshtags msh 1%Z top_facets 1%Z)) in
  let u := ufl.TrialFunction V in
  let v := ufl.TestFunction V in
  (* material constants *)
  mu <- lift (py_div E (2 * (1 + nu)));;
  lmbda <- lift (py_div (E * nu) ((1 + nu) * (1 - 2 * nu)));;
  (* linear problem with its solver options, and the solve *)
  problem <- fem.LinearProblem (Devoir.a mu lmbda dx u v)
               (Devoir.L msh load dx ds v) (applied bc_bottom bc_top)
               {[ "ksp_type" := "preonly"; "pc_type" := "lu" ]};;
  uh <- solve problem;;
  'tt <- set_name uh "displacement";;
  (* energy evaluation *)
  M <- fem.form ((1 # 2) *. Devoir.a mu lmbda dx uh uh
                 - Devoir.L msh load dx ds uh)%form;;
  energy <- fem.assemble_scalar M;;
  'tt <- print [Lit "The potential energy for Lcrack="; Fmt "2.3e" Lcrack;
                Lit " is "; Fmt "2.3e" energy];;
  Ret (uh, energy, Devoir.sigma mu lmbda (Devoir.eps uh)).

(** Which conditions each driver applies. *)
Definition applied_bcs (d : driver) (bc_bottom bc_top : DirichletBC)
    : list DirichletBC :=
  match d with
  | devoir => [bc_bottom; bc_top]
  | devoir_force => [bc_bottom]
  end.

(** ** What the symbolic layer denotes *)

(** The meaning the framework gives to a form once discretised: every
    measure is a finite quadrature rule, and at a quadrature point every
    field is known by its value and its gradient.  Fields have two
    components and the domain two dimensions, as fixed by the element
    [("Lagrange", 1, (2,))] of the drivers. *)
Module sem.

Inductive tensor : Type :=
| Scalar (s : Q)
| Vector (x y : Q)
| Matrix (xx xy yx yy : Q).

(** Value and gradient [d_ij = d u_i / d x_j] of a field at a point. *)
Record jet : Type :=
  Jet { val_x : Q; val_y : Q; d_xx : Q; d_xy : Q; d_yx : Q; d_yy : Q }.

(** The fields at one quadrature point. *)
Record fields : Type :=
  { trial : FunctionSpace -> jet;
    test : FunctionSpace -> jet;
    coefficient : FEFunction -> jet }.

Definition value_of (j : jet) : tensor := Vector (val_x j) (val_y j).
Definition gradient_of (j : jet) : tensor :=
  Matrix (d_xx j) (d_xy j) (d_yx j) (d_yy j).

Definition constant_value (c : FEConstant) : option tensor :=
  match const_value c with
  | [s] => Some (Scalar s)
  | [x; y] => Some (Vector x y)
  | _ => None
  end.

(** Gradients are known for the fields only. *)
Definition grad_at (rho : fields) (e : ufl.Expr) : option tensor :=
  match e with
  | ufl.TrialFunction V => Some (gradient_of (trial rho V))
  | ufl.TestFunction V => Some (gradient_of (test rho V))
  | ufl.Coefficient f => Some (gradient_of (coefficient rho f))
  | _ => None
  end.

(** [sym(A) = (A + A^T) / 2] *)
Definition sym_t (t : tensor) : option tensor :=
  match t with
  | Matrix xx xy yx yy =>
      Some (Matrix xx ((xy + yx) / 2) ((yx + xy) / 2) yy)
  | _ => None
  end.

Definition tr_t (t : tensor) : option tensor :=
  match t with
  | Matrix xx _ _ yy => Some (Scalar (xx + yy))
  | _ => None
  end.

Definition identity_t (n : nat) : option tensor :=
  match n with
  | 2%nat => Some (Matrix 1 0 0 1)
  | _ => None
  end.

(** [inner]: full contraction of two tensors of the same shape. *)
Definition inner_t (s t : tensor) : option tensor :=
  match s, t with
  | Scalar a, Scalar b => Some (Scalar (a * b))
  | Vector x y, Vector x' y' => Some (Scalar (x * x' + y * y'))
  | Matrix xx xy yx yy, Matrix xx' xy' yx' yy' =>
      Some (Scalar (xx * xx' + xy * xy' + yx * yx' + yy * yy'))
  | _, _ => None
  end.

(** [dot]: contraction of the last index of the first argument with the
    first index of the second. *)
Definition dot_t (s t : tensor) : option tensor :=
  match s, t with
  | Vector x y, Vector x' y' => Some (Scalar (x * x' + y * y'))
  | Matrix xx xy yx yy, Vector x y =>
      Some (Vector (xx * x + xy * y) (yx * x + yy * y))
  | Vector x y, Matrix xx xy yx yy =>
      Some (Vector (x * xx + y * yx) (x * xy + y * yy))
  | Matrix xx xy yx yy, Matrix xx' xy' yx' yy' =>
      Some (Matrix (xx * xx' + xy * yx') (xx * xy' + xy * yy')
                   (yx * xx' + yy * yx') (yx * xy' + yy * yy'))
  | _, _ => None
  end.

Definition scale_t (c : Q) (t : tensor) : tensor :=
  match t with
  | Scalar s => Scalar (c * s)
  | Vector x y => Vector (c * x) (c * y)
  | Matrix xx xy yx yy => Matrix (c * xx) (c * xy) (c * yx) (c * yy)
  end.

(** A product is defined when one factor is a scalar. *)
Definition mul_t (s t : tensor) : option tensor :=
  match s, t with
  | Scalar c, _ => Some (scale_t c t)
  | _, Scalar c => Some (scale_t c s)
  | _, _ => None
  end.

Definition add_t (s t : tensor) : option tensor :=
  match s, t with
  | Scalar a, Scalar b => Some (Scalar (a + b))
  | Vector x y, Vector x' y' => Some (Vector (x + x') (y + y'))
  | Matrix xx xy yx yy, Matrix xx' xy' yx' yy' =>
      Some (Matrix (xx + xx') (xy + xy') (yx + yx') (yy + yy'))
  | _, _ => None
  end.

Definition lift2 (f : tensor -> tensor -> option tensor)
    (s t : option tensor) : option tensor :=
  match s, t with
  | Some s, Some t => f s t
  | _, _ => None
  end.

(** The value of an expression at a quadrature point; [None] when the
    shapes do not fit. *)
Fixpoint eval (rho : fields) (e : ufl.Expr) : option tensor :=
  match e with
  | ufl.TrialFunction V => Some (value_of (trial rho V))
  | ufl.TestFunction V => Some (value_of (test rho V))
  | ufl.Coefficient f => Some (value_of (coefficient rho f))
  | ufl.Constant c => constant_value c
  | ufl.Grad e => grad_at rho e
  | ufl.Sym e => eval rho e ≫= sym_t
  | ufl.Tr e => eval rho e ≫= tr_t
  | ufl.Identity n => identity_t n
  | ufl.Inner a b => lift2 inner_t (eval rho a) (eval rho b)
  | ufl.Dot a b => lift2 dot_t (eval rho a) (eval rho b)
  | ufl.Scale c e => scale_t c <$> eval rho e
  | ufl.Mul a b => lift2 mul_t (eval rho a) (eval rho b)
  | ufl.Add a b => lift2 add_t (eval rho a) (eval rho b)
  end.

(** A quadrature rule: weights and the fields at the points. *)
Abbreviation rule := (list (Q * fields)).

(** The weighted sum of a scalar integrand over a rule. *)
Fixpoint integrate (pts : rule) (e : ufl.Expr) : option Q :=
  match pts with
  | [] => Some 0
  | (w, rho) :: pts =>
      match eval rho e, integrate pts e with
      | Some (Scalar s), Some acc => Some (w * s + acc)
      | _, _ => None
      end
  end.

Definition lift2Q (f : Q -> Q -> Q) (x y : option Q) : option Q :=
  match x, y with
  | Some x, Some y => Some (f x y)
  | _, _ => None
  end.

(** The value of a form, given the rule of each measure. *)
Fixpoint assemble (quad : ufl.Measure -> rule) (F : ufl.Form) : option Q :=
  match F with
  | ufl.Integral e m => integrate (quad m) e
  | ufl.FormAdd F G => lift2Q Qplus (assemble quad F) (assemble quad G)
  | ufl.FormSub F G => lift2Q Qminus (assemble quad F) (assemble quad G)
  | ufl.FormScale c F => Qmult c <$> assemble quad F
  end.

(** Equal as numbers, or both undefined. *)
Definition same (x y : option Q) : Prop := option_Forall2 Qeq x y.

(** Both scalars with the same value, or neither a scalar. *)
Definition scalar_same (s t : option tensor) : Prop :=
  match s, t with
  | Some (Scalar a), Some (Scalar b) => a == b
  | Some (Scalar _), _ | _, Some (Scalar _) => False
  | _, _ => True
  end.

(** The symmetric part of the gradient of a field: [exx], [exy], [eyy]. *)
Definition e_xx (j : jet) : Q := d_xx j.
Definition e_xy (j : jet) : Q := (d_xy j + d_yx j) / 2.
Definition e_yy (j : jet) : Q := d_yy j.

(** [sigma(eps(u)) : eps(v)] at a point, in components:
    [2 mu eps(u) : eps(v) + lmbda tr(eps(u)) tr(eps(v))]. *)
Definition elastic_density (mu lmbda : Q) (ju jv : jet) : Q :=
  2 * mu * (e_xx ju * e_xx jv + 2 * (e_xy ju * e_xy jv) + e_yy ju * e_yy jv)
  + lmbda * ((e_xx ju + e_yy ju) * (e_xx jv + e_yy jv)).

(** The weighted sum of a pointwise quantity over a rule. *)
Fixpoint weighted_sum (pts : rule) (f : fields -> Q) : Q :=
  match pts with
  | [] => 0
  | (w, rho) :: pts => w * f rho + weighted_sum pts f
  end.

End sem.

(** ** A mock framework to run the drivers against *)

(** A stand-in for the framework, used to run the drivers on concrete
    arguments: the specimen is known by the midpoints of five boundary
    facets, references are numbered as they are created, assembly evaluates
    the compiled form on a one-point rule, and chosen calls can be made to
    raise. *)
Module mock.

Record state : Type :=
  { next_id : nat;
    midpoints : coords;
    forms : list (nat * ufl.Form) }.

Definition init : state :=
  {| next_id := 0; midpoints := Coords [] [] []; forms := [] |}.

(** Facets 0 and 1 lie on the bottom, on the crack and beside it; facet 2
    on the right side, facet 3 on the top, facet 4 on the left side. *)
Definition boundary (Lx Ly Lcrack : Q) : coords :=
  Coords [Lcrack / 2; (Lcrack + Lx) / 2; Lx; Lx / 2; 0]
         [0; 0; Ly / 2; Ly; Ly / 2]
         [0; 0; 0; 0; 0].

(** The indices at which a marker answered [True]. *)
Fixpoint marked_from (i : nat) (m : list bool) : list nat :=
  match m with
  | [] => []
  | b :: m => (if b then [i] else []) ++ marked_from (S i) m
  end.

Definition component (V : FunctionSpace) : nat :=
  match V with
  | SubSpace _ i => i
  | FunctionSpaceRef _ => 0
  end.

(** A uniform unit stretch in [y], seen at one point of weight one. *)
Definition stretch : sem.fields :=
  {| sem.trial := fun _ => sem.Jet 0 0 0 0 0 0;
     sem.test := fun _ => sem.Jet 0 0 0 0 0 0;
     sem.coefficient := fun _ => sem.Jet 0 1 0 0 0 1 |}.

Definition quad (m : ufl.Measure) : sem.rule := [(1, stretch)].

Definition compiled (s : state) (M : CompiledForm) : option ufl.Form :=
  snd <$> find (fun p => Nat.eqb (fst p) (form_id M)) (forms s).

Definition fresh (s : state) (n : nat) : state :=
  {| next_id := next_id s + n; midpoints := midpoints s; forms := forms s |}.

Definition answer {X : Type} (c : request X) (s : state) : X * state :=
  match c in request X return X * state with
  | GenerateMeshWithCrack Lcrack Lx Ly _ _ _ _ _ =>
      ((MeshRef (next_id s), MeshTagsRef (next_id s + 1),
        MeshTagsRef (next_id s + 2)),
       {| next_id := next_id s + 3; midpoints := boundary Lx Ly Lcrack;
          forms := forms s |})
  | NewFunctionSpace _ _ => (FunctionSpaceRef (next_id s), fresh s 1)
  | TopologyDim _ => (2%Z, s)
  | LocateEntitiesBoundary _ _ marker =>
      (marked_from 0 (marker (midpoints s)), s)
  | LocateDofsTopological V _ entities =>
      (map (fun f => 2 * f + component V)%nat entities, s)
  | NewLinearProblem _ _ _ _ => (LinearProblemRef (next_id s), fresh s 1)
  | Solve _ => (FEFunctionRef (next_id s), fresh s 1)
  | SetName _ _ => (tt, s)
  | CompileForm F =>
      (CompiledFormRef (next_id s),
       {| next_id := next_id s + 1; midpoints := midpoints s;
          forms := (next_id s, F) :: forms s |})
  | AssembleScalar M =>
      (Qred (default 0 (compiled s M ≫= sem.assemble quad)), s)
  | Print _ => (tt, s)
  end.

(** The framework in which the calls listed in [faults] raise. *)
Definition framework (faults : api -> option exn) : handler state :=
  fun X c s =>
    match faults (api_of c) with
    | Some e => (inl e, s)
    | None => let '(x, s') := answer c s in (inr x, s')
    end.

Definition healthy : handler state := framework (fun _ => None).

(** The linear solve fails, as on a singular system. *)
Definition singular : handler state :=
  framework (fun f => if decide (f = api_solve)
                      then Some (ExternalError "petsc4py.PETSc.Error")
                      else None).

End mock.

(** ** Reading a trace *)

(** The forms, the conditions and the options of a call that creates a linear
    problem. *)
Definition forms_of (c : entry) : option (ufl.Form * ufl.Form) :=
  match entry_call c with
  | NewLinearProblem a L _ _ => Some (a, L)
  | _ => None
  end.

Definition conditions_of (c : entry) : option (list DirichletBC) :=
  match entry_call c with
  | NewLinearProblem _ _ bcs _ => Some bcs
  | _ => None
  end.

Definition solver_options_of (c : entry) : option (gmap string string) :=
  match entry_call c with
  | NewLinearProblem _ _ _ o => Some o
  | _ => None
  end.

(** The problem a successful [LinearProblem(...)] returned. *)
Definition created (c : entry) : option LinearProblem :=
  match entry_call c in request X return exn + X -> option LinearProblem with
  | NewLinearProblem _ _ _ _ =>
      fun o => match o with inr p => Some p | inl _ => None end
  | _ => fun _ => None
  end (entry_outcome c).

(** The problem on which [solve()] was called. *)
Definition solved (c : entry) : option LinearProblem :=
  match entry_call c with
  | Solve p => Some p
  | _ => None
  end.

Definition succeeded (c : entry) : Prop := entry_failed c = None.

(** ** The order of the calls *)

(** The calls of a complete run, in the order of the source lines. *)
Definition call_order : list api :=
  [api_generate_mesh_with_crack;
   api_functionspace;
   api_topology_dim; api_locate_entities_boundary;
   api_topology_dim; api_locate_dofs_topological;
   api_topology_dim; api_locate_entities_boundary;
   api_topology_dim; api_locate_dofs_topological;
   api_locate_entities_boundary;
   api_LinearProblem;
   api_solve; api_set_name;
   api_form; api_assemble_scalar; api_print].

(** The six steps of the overview: (a) mesh generation, (b) function space,
    (c) geometric location on the boundary, (d) the forms, handed to the
    linear problem, (e) the solve, (f) the energy. *)
Inductive step : Type :=
| step_a_mesh
| step_b_function_space
| step_c_boundary_dofs
| step_d_forms
| step_e_solve
| step_f_energy.

Definition step_of (f : api) : step :=
  match f with
  | api_generate_mesh_with_crack => step_a_mesh
  | api_functionspace => step_b_function_space
  | api_topology_dim | api_locate_entities_boundary
  | api_locate_dofs_topological => step_c_boundary_dofs
  | api_LinearProblem => step_d_forms
  | api_solve | api_set_name => step_e_solve
  | api_form | api_assemble_scalar | api_print => step_f_energy
  end.

Definition rank (s : step) : nat :=
  match s with
  | step_a_mesh => 0
  | step_b_function_space => 1
  | step_c_boundary_dofs => 2
  | step_d_forms => 3
  | step_e_solve => 4
  | step_f_energy => 5
  end.

(** No step comes back once a later one has begun. *)
Fixpoint in_order (l : list step) : bool :=
  match l with
  | s :: (t :: _) as l' => (rank s <=? rank t)%nat && in_order l'
  | _ => true
  end.

(** ** The forms of linear elasticity, as the description writes them *)

(** Lame constants from Young's modulus and Poisson's ratio. *)
Definition lame_mu (E nu : Q) : Q := E / (2 * (1 + nu)).
Definition lame_lmbda (E nu : Q) : Q := E * nu / ((1 + nu) * (1 - 2 * nu)).

(** [inner(2 mu sym(grad(u)) + lmbda tr(sym(grad(u))) I, sym(grad(v))) dx] *)
Definition elasticity_form (mu lmbda : Q) (dx : ufl.Measure) (u v : ufl.Expr)
    : ufl.Form :=
  ufl.Integral
    (ufl.Inner
       (ufl.Add (ufl.Scale (2 * mu) (ufl.Sym (ufl.Grad u)))
                (ufl.Mul (ufl.Scale lmbda (ufl.Tr (ufl.Sym (ufl.Grad u))))
                         (ufl.Identity 2)))
       (ufl.Sym (ufl.Grad v)))
    dx.

(** [(0, 0) . v dx + (0, load) . v ds(1)] *)
Definition load_form (msh : Mesh) (load : Q) (dx ds : ufl.Measure)
    (v : ufl.Expr) : ufl.Form :=
  ufl.FormAdd
    (ufl.Integral
       (ufl.Dot (ufl.Constant {| const_mesh := msh; const_value := [0; 0] |}) v)
       dx)
    (ufl.Integral
       (ufl.Dot (ufl.Constant {| const_mesh := msh; const_value := [0; load] |})
                v)
       {| ufl.integral_type := ufl.integral_type ds;
          ufl.domain := ufl.domain ds;
          ufl.subdomain_data := ufl.subdomain_data ds;
          ufl.subdomain_id := Some 1%Z |}).

(** The volume measure of a mesh, and the boundary measure tagged 1 on the
    given facets. *)
Definition volume_measure (msh : Mesh) : ufl.Measure :=
  {| ufl.integral_type := "dx"; ufl.domain := Some msh;
     ufl.subdomain_data := None; ufl.subdomain_id := None |}.

Definition tagged_boundary_measure (msh : Mesh) (facets : list nat)
    : ufl.Measure :=
  {| ufl.integral_type := "ds"; ufl.domain := None;
     ufl.subdomain_data := Some (MeshTagsOf msh 1 facets 1);
     ufl.subdomain_id := None |}.

(** [0.5 * a(uh, uh) - L(uh)] *)
Definition potential_energy_form (mu lmbda load : Q) (msh : Mesh)
    (dx ds : ufl.Measure) (uh : FEFunction) : ufl.Form :=
  ufl.FormSub
    (ufl.FormScale (1 # 2) (elasticity_form mu lmbda dx uh uh))
    (load_form msh load dx ds uh).

(** The solver options of a direct solve: no Krylov iteration, an LU
    factorisation as the preconditioner. *)
Definition direct_lu : gmap string string :=
  {[ "ksp_type" := "preonly"; "pc_type" := "lu" ]}.

(** The line the drivers print. *)
Definition energy_message (Lcrack energy : Q) : list fragment :=
  [Lit "The potential energy for Lcrack="; Fmt "2.3e" Lcrack;
   Lit " is "; Fmt "2.3e" energy].


(** ** The calls before the linear problem *)

(** The answers of the framework to the ten calls that lead to the located
    dofs. *)
Record located : Type :=
  { the_mesh : Mesh;
    cell_tags : MeshTags;
    facet_tags : MeshTags;
    the_space : FunctionSpace;
    dim_1 : Z;
    bottom_facets : list nat;
    dim_2 : Z;
    bottom_dofs : list nat;
    dim_3 : Z;
    top_facets : list nat;
    dim_4 : Z;
    top_dofs : list nat }.

(** Mesh generation, function space, and the location of the dofs of the
    second component on the bottom beside the crack and on the top. *)
Definition location_calls
    (Lx Ly Lcrack lc refinement_ratio dist_min dist_max verbosity : Q)
    (l : located) : list entry :=
  [Entry (GenerateMeshWithCrack Lcrack Lx Ly lc refinement_ratio
            dist_min dist_max verbosity)
         (inr (the_mesh l, cell_tags l, facet_tags l));
   Entry (NewFunctionSpace (the_mesh l) ("Lagrange", 1%Z, [2%Z]))
         (inr (the_space l));
   Entry (TopologyDim (the_mesh l)) (inr (dim_1 l));
   Entry (LocateEntitiesBoundary (the_mesh l) (dim_1 l - 1)%Z
            (Devoir.bottom_no_crack Lcrack))
         (inr (bottom_facets l));
   Entry (TopologyDim (the_mesh l)) (inr (dim_2 l));
   Entry (LocateDofsTopological (SubSpace (the_space l) 1) (dim_2 l - 1)%Z
            (bottom_facets l))
         (inr (bottom_dofs l));
   Entry (TopologyDim (the_mesh l)) (inr (dim_3 l));
   Entry (LocateEntitiesBoundary (the_mesh l) (dim_3 l - 1)%Z (Devoir.top Ly))
         (inr (top_facets l));
   Entry (TopologyDim (the_mesh l)) (inr (dim_4 l));
   Entry (LocateDofsTopological (SubSpace (the_space l) 1) (dim_4 l - 1)%Z
            (top_facets l))
         (inr (top_dofs l))].

(** The facets of the top, located once more to tag the boundary measure. *)
Definition tagging_call (Ly : Q) (l : located) (facets : list nat) : entry :=
  Entry (LocateEntitiesBoundary (the_mesh l) 1%Z
           (fun x => isclose (row1 x) Ly))
        (inr facets).

(** The second component fixed to [0] on the located bottom dofs. *)
Definition bottom_condition (l : located) : DirichletBC :=
  {| bc_value := 0; bc_dofs := bottom_dofs l;
     bc_space := SubSpace (the_space l) 1 |}.

(** The second component fixed to [delta_L] on the located top dofs. *)
Definition top_condition (delta_L : Q) (l : located) : DirichletBC :=
  {| bc_value := delta_L; bc_dofs := top_dofs l;
     bc_space := SubSpace (the_space l) 1 |}.

(** A call that stands for no call, where a list needs a default. *)
Definition no_entry : entry := Entry (Print []) (inl ZeroDivisionError).

(** ** Programs that leave the module alone *)

(** No path through the program rebinds a module-level name. *)
Inductive assigns_no_global {R : Type} : prog R -> Prop :=
| ang_ret (r : R) : assigns_no_global (Ret r)
| ang_raise (e : exn) : assigns_no_global (Raise e)
| ang_call {X : Type} (c : request X) (k : X -> prog R) :
    (forall x, assigns_no_global (k x)) -> assigns_no_global (Call c k).

(** ** More readers of a trace *)

(** The dimension the framework answered to [msh.topology.dim]. *)
Definition dimension_answer (c : entry) : option Z :=
  match entry_call c in request X return exn + X -> option Z with
  | TopologyDim _ => fun o => match o with inr dim => Some dim | inl _ => None end
  | _ => fun _ => None
  end (entry_outcome c).

(** The mesh, the dimension and the marker of a call that locates boundary
    entities. *)
Definition location_request_of (c : entry)
    : option (Mesh * Z * (coords -> list bool)) :=
  match entry_call c with
  | LocateEntitiesBoundary msh dim marker => Some (msh, dim, marker)
  | _ => None
  end.

(** * Properties *)

(** ** The geometric markers *)

Section Markers.

Lemma lookup_map {A B : Type} (f : A -> B) (l : list A) (i : nat) :
  map f l !! i = f <$> (l !! i).
Proof.
  revert i; induction l as [|a l IH]; intros [|i]; cbn; auto.
Qed.

Lemma isclose1_spec (a b : Q) :
  isclose1 a b = true <-> Qabs (a - b) <= atol + rtol * Qabs b.
Proof. unfold isclose1. apply Qle_bool_iff. Qed.

Lemma tolerance_nonneg (b : Q) : 0 <= atol + rtol * Qabs b.
Proof.
  pose proof (Qabs_nonneg b) as Hb.
  unfold atol, rtol.
  assert (0 <= (1 # 100000) * Qabs b)
    by (apply Qmult_le_0_compat; [easy | exact Hb]).
  lra.
Qed.

(** Equal numbers are close. *)
Lemma isclose1_eq (a b : Q) : a == b -> isclose1 a b = true.
Proof.
  intros Hab. apply isclose1_spec.
  assert (Hz : Qabs (a - b) == 0).
  { assert (a - b == 0) as -> by lra. reflexivity. }
  rewrite Hz. apply tolerance_nonneg.
Qed.

(** Against zero only the absolute tolerance counts. *)
Lemma isclose1_zero (a : Q) : isclose1 a 0 = true <-> Qabs a <= atol.
Proof.
  rewrite isclose1_spec.
  assert (Ha : Qabs (a - 0) == Qabs a).
  { assert (a - 0 == a) as -> by lra. reflexivity. }
  rewrite Ha.
  assert (atol + rtol * Qabs 0 == atol) as -> by reflexivity.
  reflexivity.
Qed.

Lemma gt_spec (a b : Q) : negb (Qle_bool a b) = true <-> b < a.
Proof.
  rewrite negb_true_iff, <- not_true_iff_false, Qle_bool_iff.
  split; [apply Qnot_le_lt | apply Qlt_not_le].
Qed.

Lemma bottom_no_crack_lookup (Lcrack : Q) (x : coords) (i : nat) (x0 x1 : Q) :
  row0 x !! i = Some x0 -> row1 x !! i = Some x1 ->
  Devoir.bottom_no_crack Lcrack x !! i
  = Some (isclose1 x1 0 && negb (Qle_bool x0 Lcrack)).
Proof.
  intros H0 H1. unfold Devoir.bottom_no_crack, logical_and, isclose, np_gt.
  rewrite lookup_zip_with, !lookup_map, H0, H1. reflexivity.
Qed.

Lemma top_lookup (Ly : Q) (x : coords) (i : nat) (x1 : Q) :
  row1 x !! i = Some x1 -> Devoir.top Ly x !! i = Some (isclose1 x1 Ly).
Proof.
  intros H1. unfold Devoir.top, isclose. rewrite lookup_map, H1. reflexivity.
Qed.

End Markers.

(** ** The material constants *)

Lemma zero_divisor_mu (nu : Q) : Qeq_bool (2 * (1 + nu)) 0 = true -> nu == -1.
Proof. intros H%Qeq_bool_iff. lra. Qed.

Lemma zero_divisor_lmbda (nu : Q) :
  Qeq_bool ((1 + nu) * (1 - 2 * nu)) 0 = true -> nu == -1 \/ nu == 1 # 2.
Proof.
  intros H%Qeq_bool_iff.
  apply Qmult_integral in H as [H | H]; [left | right]; lra.
Qed.

Lemma nonzero_divisors (nu : Q) :
  Qeq_bool (2 * (1 + nu)) 0 = false ->
  Qeq_bool ((1 + nu) * (1 - 2 * nu)) 0 = false ->
  ~ nu == -1 /\ ~ nu == 1 # 2.
Proof.
  intros H1%Qeq_bool_neq H2%Qeq_bool_neq.
  split; intros Hnu; apply H2; rewrite Hnu; reflexivity.
Qed.

(** ** The meaning of the forms *)

Section Semantics.

Import sem.

(** Integrands that agree at every point have the same integral. *)
Lemma integrate_same (pts : rule) (e e' : ufl.Expr) :
  (forall rho, scalar_same (eval rho e) (eval rho e')) ->
  same (integrate pts e) (integrate pts e').
Proof.
  intros Hpt. induction pts as [|[w rho] pts IH]; cbn [integrate].
  - constructor. reflexivity.
  - specialize (Hpt rho). unfold scalar_same in Hpt.
    destruct (eval rho e) as [[a | |]|], (eval rho e') as [[b | |]|];
      try contradiction; try constructor;
      destruct IH as [x y Hxy|]; constructor.
    rewrite Hpt, Hxy. reflexivity.
Qed.

(** An integrand with a known scalar value integrates to its weighted
    sum. *)
Lemma integrate_scalar (pts : rule) (e : ufl.Expr) (f : fields -> Q) :
  (forall rho, scalar_same (eval rho e) (Some (Scalar (f rho)))) ->
  same (integrate pts e) (Some (weighted_sum pts f)).
Proof.
  intros Hpt. induction pts as [|[w rho] pts IH];
    cbn [integrate weighted_sum].
  - constructor. reflexivity.
  - specialize (Hpt rho). unfold scalar_same in Hpt.
    destruct (eval rho e) as [[a | |]|]; try contradiction.
    inversion IH as [x y Hxy Hx Hy|]; subst. constructor.
    rewrite Hpt, Hxy. reflexivity.
Qed.

(** The constitutive law is self-adjoint for the contraction of strains:
    [sigma(eps(u)) : eps(v) = sigma(eps(v)) : eps(u)] at every point. *)
Lemma stress_strain_symmetric (rho : fields) (mu lmbda : Q)
    (u v : ufl.Expr) :
  scalar_same
    (eval rho (ufl.inner (Devoir.sigma mu lmbda (Devoir.eps u))
                 (Devoir.eps v)))
    (eval rho (ufl.inner (Devoir.sigma mu lmbda (Devoir.eps v))
                 (Devoir.eps u))).
Proof.
  unfold Devoir.sigma, Devoir.eps, ufl.inner, ufl.sym, ufl.grad, ufl.tr.
  cbn [eval].
  destruct (grad_at rho u) as [[s | x y | xx xy yx yy]|],
           (grad_at rho v) as [[s' | x' y' | xx' xy' yx' yy']|];
    cbn; try exact I.
  field.
Qed.

(** The integrand of the bilinear form on the trial and test functions is
    the elastic density of their strains. *)
Lemma stress_strain_density (rho : fields) (mu lmbda : Q)
    (V : FunctionSpace) :
  scalar_same
    (eval rho
       (ufl.Inner
          (ufl.Add
             (ufl.Scale (2 * mu) (ufl.Sym (ufl.Grad (ufl.TrialFunction V))))
             (ufl.Mul
                (ufl.Scale lmbda
                   (ufl.Tr (ufl.Sym (ufl.Grad (ufl.TrialFunction V)))))
                (ufl.Identity 2)))
          (ufl.Sym (ufl.Grad (ufl.TestFunction V)))))
    (Some (Scalar (elastic_density mu lmbda (trial rho V) (test rho V)))).
Proof.
  cbn. unfold elastic_density, e_xx, e_xy, e_yy. field.
Qed.

End Semantics.

(** ** Stepping through a run *)

Ltac unfold_driver :=
  cbn [body Devoir.solve_elasticity_devoir
       DevoirForce.solve_elasticity_devoir_force call_sequence
       generate_mesh_with_crack topology_dim solve set_name print
       mesh.locate_entities_boundary fem.functionspace
       fem.locate_dofs_topological fem.LinearProblem fem.form
       fem.assemble_scalar call bind].

Ltac run_simpl := cbn [run bind lift log outcome trace globals world].

(** One step of a run: the next call is answered or raises, or the next
    division has a zero divisor or not. *)
Ltac run_step h :=
  run_simpl;
  lazymatch goal with
  | |- context [h ?X ?c ?w] =>
      let e := fresh "e" in
      let x := fresh "x" in
      let w' := fresh "w" in
      destruct (h X c w) as [[e | x] w'];
      [ | lazymatch type of x with
          | (_ * _ * _)%type => destruct x as [[? ?] ?]
          | unit => destruct x
          | _ => idtac
          end ];
      run_simpl
  | |- context [py_div ?a ?b] =>
      let Hz := fresh "Hz" in
      change (py_div a b)
        with (if Qeq_bool b 0 then inl ZeroDivisionError else inr (a / b));
      destruct (Qeq_bool b 0) eqn:Hz;
      run_simpl
  end.

(** Every entry of a concrete trace satisfies a property that only speaks of
    the calls selected by a reader: [tac] settles the selected ones. *)
Ltac each_entry tac :=
  repeat first
    [ apply List.Forall_nil
    | apply List.Forall_cons;
      [ first [ by (intros; discriminate) | tac ] | ] ].

Ltac some_located :=
  eexists (Build_located _ _ _ _ _ _ _ _ _ _ _ _).

(** A concrete non-empty trace, split at its last call. *)
Ltac split_last :=
  lazymatch goal with
  | |- exists t c, ?l = t ++ [c] /\ _ =>
      exists (removelast l), (List.last l no_entry);
      split; [reflexivity | split; [repeat constructor | reflexivity]]
  end.
(** The closures of the second driver are those of the first. *)
Ltac same_closures :=
  change DevoirForce.bottom_no_crack with Devoir.bottom_no_crack;
  change DevoirForce.top with Devoir.top;
  change DevoirForce.eps with Devoir.eps;
  change DevoirForce.sigma with Devoir.sigma;
  change DevoirForce.a with Devoir.a;
  change DevoirForce.L with Devoir.L.

(** The step of a run whose next call creates the linear problem. *)
Ltac step_linear_problem h :=
  run_simpl;
  match goal with
  | |- context [h ?X (NewLinearProblem ?a ?L ?bcs ?o) ?w] =>
      destruct (h X (NewLinearProblem a L bcs o) w) as [[? | ?] ?]
  end;
  run_simpl.

(** ** Claims *)

(** C1: the two drivers perform the same sequence of calls and differ only
    in the Dirichlet conditions handed to the linear problem.  Both are the
    common call sequence, instantiated with [[bc_bottom; bc_top]] for
    [solve_elasticity_devoir] and with [[bc_bottom]] for
    [solve_elasticity_devoir_force]; run against the same framework from the
    same state on the same arguments, their first eleven calls and answers
    coincide, and the twelfth call, which creates the linear problem, has the
    same forms and solver options and those two lists of conditions. *)
Theorem drivers_differ_only_in_conditions
    (nu E load Lx Ly Lcrack lc refinement_ratio dist_min dist_max
     verbosity delta_L : Q) :
  (forall d : driver,
      body d nu E load Lx Ly Lcrack lc refinement_ratio dist_min dist_max
        verbosity delta_L
      = call_sequence (applied_bcs d) nu E load Lx Ly Lcrack lc
          refinement_ratio dist_min dist_max verbosity delta_L)
  /\ (forall bc_bottom bc_top : DirichletBC,
        applied_bcs devoir bc_bottom bc_top = [bc_bottom; bc_top]
        /\ applied_bcs devoir_force bc_bottom bc_top = [bc_bottom])
  /\ forall (W : Type) (h : handler W) (g : namespace) (w : W),
       let r1 := run h (body devoir nu E load Lx Ly Lcrack lc
                          refinement_ratio dist_min dist_max verbosity
                          delta_L) g w in
       let r2 := run h (body devoir_force nu E load Lx Ly Lcrack lc
                          refinement_ratio dist_min dist_max verbosity
                          delta_L) g w in
       take 11 (trace r1) = take 11 (trace r2)
       /\ match trace r1 !! 11%nat, trace r2 !! 11%nat with
          | Some c1, Some c2 =>
              forms_of c1 = forms_of c2
              /\ solver_options_of c1 = solver_options_of c2
              /\ exists bc_bottom bc_top,
                   conditions_of c1 = Some [bc_bottom; bc_top]
                   /\ conditions_of c2 = Some [bc_bottom]
          | None, None => True
          | _, _ => False
          end.
Proof.
  split; [| split].
  - intros []; reflexivity.
  - intros; split; reflexivity.
  - intros W h g w; cbv zeta. unfold_driver. same_closures.
    do 13 (run_step h; [ split; [reflexivity | exact I] | ]).
    do 2 step_linear_problem h;
      (split; [reflexivity | cbn [lookup list_lookup] ]);
      (split; [reflexivity | split; [reflexivity |]]);
      eexists _, _; split; reflexivity.
Qed.


(** In [solve_elasticity_devoir], by contrast, [delta_L] reaches the linear
    problem: the value of the second condition is [delta_L]. *)
Example devoir_uses_delta_L :
  omap conditions_of
    (trace (run mock.healthy (with_defaults devoir) module_globals mock.init))
  = [[ {| bc_value := 0; bc_dofs := [3%nat];
          bc_space := SubSpace (FunctionSpaceRef 3) 1 |};
       {| bc_value := 700 * (1 # 1000000); bc_dofs := [7%nat];
          bc_space := SubSpace (FunctionSpaceRef 3) 1 |} ]].
Proof. reflexivity. Qed.

(** C3: in both drivers the returned energy is the potential energy of the
    solved displacement.  Whenever a driver returns [(uh, energy,
    sigma_ufl)], its run ends with these calls: the linear problem is
    created from the bilinear form [a] and the linear form [L]; [solve()] on
    that problem answers [uh]; the form [0.5 * a(uh, uh) - L(uh)], with the
    same [a] and [L], is compiled; and [energy] is the answer of
    [assemble_scalar] on that compiled form. *)
Theorem energy_is_potential_energy (d : driver) (W : Type) (h : handler W)
    (g : namespace) (w : W)
    (nu E load Lx Ly Lcrack lc refinement_ratio dist_min dist_max
     verbosity delta_L : Q)
    (uh : FEFunction) (energy : Q) (sigma_ufl : ufl.Expr) :
  let r := run h (body d nu E load Lx Ly Lcrack lc refinement_ratio dist_min
                    dist_max verbosity delta_L) g w in
  outcome r = inr (uh, energy, sigma_ufl) ->
  exists (l : located) (facets : list nat) (problem : LinearProblem)
         (M : CompiledForm),
    let mu := lame_mu E nu in
    let lmbda := lame_lmbda E nu in
    let dx := volume_measure (the_mesh l) in
    let ds := tagged_boundary_measure (the_mesh l) facets in
    let u := ufl.TrialFunction (the_space l) in
    let v := ufl.TestFunction (the_space l) in
    trace r
    = location_calls Lx Ly Lcrack lc refinement_ratio dist_min dist_max
        verbosity l
      ++ [tagging_call Ly l facets;
          Entry (NewLinearProblem (elasticity_form mu lmbda dx u v)
                   (load_form (the_mesh l) load dx ds v)
                   (applied_bcs d (bottom_condition l)
                      (top_condition delta_L l))
                   direct_lu)
                (inr problem);
          Entry (Solve problem) (inr uh);
          Entry (SetName uh "displacement") (inr tt);
          Entry (CompileForm
                   (potential_energy_form mu lmbda load (the_mesh l) dx ds uh))
                (inr M);
          Entry (AssembleScalar M) (inr energy);
          Entry (Print (energy_message Lcrack energy)) (inr tt)]
    /\ forall quad : ufl.Measure -> sem.rule,
         sem.assemble quad
           (potential_energy_form mu lmbda load (the_mesh l) dx ds uh)
         = sem.lift2Q Qminus
             (Qmult (1 # 2)
                <$> sem.assemble quad (elasticity_form mu lmbda dx uh uh))
             (sem.assemble quad (load_form (the_mesh l) load dx ds uh)).
Proof.
  cbv zeta. destruct d; unfold_driver.
  all: repeat (run_step h; [ intros [=] | ]).
  all: intros [= <- <- <-]; some_located; eexists _, _, _;
    split; [reflexivity | intros quad; reflexivity].
Qed.

Lemma energy_is_potential_energy_witness :
  exists (l : located) (facets : list nat) (problem : LinearProblem)
         (M : CompiledForm),
    trace (run mock.healthy (with_defaults devoir) module_globals mock.init)
    = location_calls (10 / 100) (45 / 2 / 100) (10 / 1000) (9 # 1000) 10
        (3 # 100) (5 # 100) 10 l
      ++ [tagging_call (45 / 2 / 100) l facets;
          Entry (NewLinearProblem
                   (elasticity_form (lame_mu 3000000000 (4 # 10))
                      (lame_lmbda 3000000000 (4 # 10))
                      (volume_measure (the_mesh l))
                      (ufl.TrialFunction (the_space l))
                      (ufl.TestFunction (the_space l)))
                   (load_form (the_mesh l) 0 (volume_measure (the_mesh l))
                      (tagged_boundary_measure (the_mesh l) facets)
                      (ufl.TestFunction (the_space l)))
                   (applied_bcs devoir (bottom_condition l)
                      (top_condition (700 * (1 # 1000000)) l))
                   direct_lu)
                (inr problem);
          Entry (Solve problem) (inr (FEFunctionRef 5));
          Entry (SetName (FEFunctionRef 5) "displacement") (inr tt);
          Entry (CompileForm
                   (potential_energy_form (lame_mu 3000000000 (4 # 10))
                      (lame_lmbda 3000000000 (4 # 10)) 0 (the_mesh l)
                      (volume_measure (the_mesh l))
                      (tagged_boundary_measure (the_mesh l) facets)
                      (FEFunctionRef 5)))
                (inr M);
          Entry (AssembleScalar M) (inr (22500000000 # 7));
          Entry (Print (energy_message (10 / 1000) (22500000000 # 7)))
                (inr tt)].
Proof.
  destruct (energy_is_potential_energy devoir mock.state mock.healthy
              module_globals mock.init (4 # 10) 3000000000 0 (10 / 100)
              (45 / 2 / 100) (10 / 1000) (9 # 1000) 10 (3 # 100) (5 # 100) 10
              (700 * (1 # 1000000)) (FEFunctionRef 5) (22500000000 # 7)
              (Devoir.sigma (lame_mu 3000000000 (4 # 10))
                 (lame_lmbda 3000000000 (4 # 10))
                 (Devoir.eps (FEFunctionRef 5))))
    as (l & facets & problem & M & Htrace & _).
  - reflexivity.
  - exists l, facets, problem, M. exact Htrace.
Defined.

(** C4: in [solve_elasticity_devoir] the Dirichlet conditions handed to the
    linear problem are prescribed displacements on parts of the boundary:
    the second component is fixed to [0] on the dofs located on the boundary
    facets marked by [bottom_no_crack], and to [delta_L] on those marked by
    [top].  At a point [(x0, x1)] of the coordinate array, [bottom_no_crack]
    answers true when [x1 = 0] and [x0 > Lcrack], and only when [x1] is
    within the absolute tolerance of [0] and [x0 > Lcrack]; [top] answers
    true when [x1 = Ly], and only when [x1] is within tolerance of [Ly]. *)
Theorem devoir_dirichlet_conditions (W : Type) (h : handler W)
    (g : namespace) (w : W)
    (nu E load Lx Ly Lcrack lc refinement_ratio dist_min dist_max
     verbosity delta_L : Q)
    (x : coords) (i : nat) (x0 x1 : Q) :
  row0 x !! i = Some x0 ->
  row1 x !! i = Some x1 ->
  let r := run h (Devoir.solve_elasticity_devoir nu E load Lx Ly Lcrack lc
                    refinement_ratio dist_min dist_max verbosity delta_L)
             g w in
  Forall (fun c => forall bcs, conditions_of c = Some bcs ->
            exists l : located,
              take 10 (trace r)
              = location_calls Lx Ly Lcrack lc refinement_ratio dist_min
                  dist_max verbosity l
              /\ bcs = [bottom_condition l; top_condition delta_L l])
    (trace r)
  /\ (x1 == 0 -> Lcrack < x0 ->
      Devoir.bottom_no_crack Lcrack x !! i = Some true)
  /\ (Devoir.bottom_no_crack Lcrack x !! i = Some true ->
      Qabs x1 <= atol /\ Lcrack < x0)
  /\ (x1 == Ly -> Devoir.top Ly x !! i = Some true)
  /\ (Devoir.top Ly x !! i = Some true ->
      Qabs (x1 - Ly) <= atol + rtol * Qabs Ly).
Proof.
  intros H0 H1. cbv zeta. split; [| split; [| split; [| split]]].
  - unfold_driver.
    repeat (run_step h;
            [ by each_entry
                   ltac:(intros ? [= <-]; some_located; split; reflexivity)
            | ]).
    by each_entry ltac:(intros ? [= <-]; some_located; split; reflexivity).
  - intros Hy Hx. rewrite (bottom_no_crack_lookup _ _ _ _ _ H0 H1).
    f_equal. apply andb_true_iff. split.
    + by apply isclose1_eq.
    + by apply gt_spec.
  - rewrite (bottom_no_crack_lookup _ _ _ _ _ H0 H1).
    intros [= [Hy Hx]%andb_true_iff]. split.
    + by apply isclose1_zero.
    + by apply gt_spec.
  - intros Hy. rewrite (top_lookup _ _ _ _ H1). f_equal. by apply isclose1_eq.
  - rewrite (top_lookup _ _ _ _ H1). intros [= Hy]. by apply isclose1_spec.
Qed.

Lemma devoir_dirichlet_conditions_witness :
  omap conditions_of
    (trace (run mock.healthy (with_defaults devoir) module_globals mock.init))
  = [[ {| bc_value := 0; bc_dofs := [3%nat];
          bc_space := SubSpace (FunctionSpaceRef 3) 1 |};
       {| bc_value := default_delta_L devoir; bc_dofs := [7%nat];
          bc_space := SubSpace (FunctionSpaceRef 3) 1 |} ]]
  /\ Devoir.bottom_no_crack (10 / 1000)
       (mock.boundary (10 / 100) (45 / 2 / 100) (10 / 1000)) !! 1%nat
     = Some true
  /\ Devoir.top (45 / 2 / 100)
       (mock.boundary (10 / 100) (45 / 2 / 100) (10 / 1000)) !! 3%nat
     = Some true.
Proof.
  split; [reflexivity | split].
  - apply (devoir_dirichlet_conditions mock.state mock.healthy module_globals
             mock.init (4 # 10) 3000000000 0 (10 / 100) (45 / 2 / 100)
             (10 / 1000) (9 # 1000) 10 (3 # 100) (5 # 100) 10
             (700 * (1 # 1000000))
             (mock.boundary (10 / 100) (45 / 2 / 100) (10 / 1000)) 1%nat
             ((10 / 1000 + 10 / 100) / 2) 0);
      [reflexivity | reflexivity | reflexivity | reflexivity].
  - apply (devoir_dirichlet_conditions mock.state mock.healthy module_globals
             mock.init (4 # 10) 3000000000 0 (10 / 100) (45 / 2 / 100)
             (10 / 1000) (9 # 1000) 10 (3 # 100) (5 # 100) 10
             (700 * (1 # 1000000))
             (mock.boundary (10 / 100) (45 / 2 / 100) (10 / 1000)) 3%nat
             ((10 / 100) / 2) (45 / 2 / 100));
      [reflexivity | reflexivity | reflexivity].
Defined.

Lemma same_plus (x x' y y' : option Q) :
  sem.same x x' -> sem.same y y' ->
  sem.same (sem.lift2Q Qplus x y) (sem.lift2Q Qplus x' y').
Proof.
  intros [a a' Ha|] [b b' Hb|]; cbn; constructor. by rewrite Ha, Hb.
Qed.


(** C6: in both drivers the linear system is solved by a direct sparse
    solver.  Every linear problem is created with exactly the options
    [ksp_type = preonly] and [pc_type = lu]; [solve()] is only ever called
    on a problem so created; and a run that returns has created one such
    problem and solved it once. *)
Theorem direct_solver_options (d : driver) (W : Type) (h : handler W)
    (g : namespace) (w : W)
    (nu E load Lx Ly Lcrack lc refinement_ratio dist_min dist_max
     verbosity delta_L : Q) :
  let r := run h (body d nu E load Lx Ly Lcrack lc refinement_ratio dist_min
                    dist_max verbosity delta_L) g w in
  Forall (fun o => o = direct_lu) (omap solver_options_of (trace r))
  /\ omap solved (trace r) `prefix_of` omap created (trace r)
  /\ match outcome r with
     | inr _ =>
         omap solver_options_of (trace r) = [direct_lu]
         /\ exists problem, omap created (trace r) = [problem]
                            /\ omap solved (trace r) = [problem]
     | inl _ => True
     end
  /\ direct_lu !! "ksp_type" = Some "preonly"
  /\ direct_lu !! "pc_type" = Some "lu"
  /\ dom direct_lu = {[ "ksp_type"; "pc_type" ]}.
Proof.
  cbv zeta. split; [| split; [| split; [| split; [| split]]]].
  - destruct d; unfold_driver;
      repeat (run_step h; [ by repeat constructor | ]); by repeat constructor.
  - destruct d; unfold_driver;
      repeat (run_step h; [ by eexists | ]); by eexists.
  - destruct d; unfold_driver;
      repeat (run_step h; [ exact I | ]); (split; [reflexivity | by eexists]).
  - reflexivity.
  - reflexivity.
  - unfold direct_lu. rewrite dom_insert_L, dom_singleton_L. set_solver.
Qed.


(** A complete run of each driver, against the mock framework. *)
Example calls_in_order_complete (d : driver) :
  map entry_api
    (trace (run mock.healthy (with_defaults d) module_globals mock.init))
  = call_order.
Proof. destruct d; reflexivity. Qed.

(** A run cut short by the solver: the calls made are the first thirteen. *)
Example calls_in_order_singular (d : driver) :
  map entry_api
    (trace (run mock.singular (with_defaults d) module_globals mock.init))
  = take 13 call_order.
Proof. destruct d; reflexivity. Qed.



(** An exception of the framework reaches the caller as it was raised. *)
Example solver_failure_propagates (d : driver) :
  outcome (run mock.singular (with_defaults d) module_globals mock.init)
  = inl (ExternalError "petsc4py.PETSc.Error").
Proof. destruct d; reflexivity. Qed.

(** ** Module-level state *)

Section Globals.

Context {W : Type} (h : handler W).

Lemma assigns_no_global_bind {A B : Type} (p : prog A) (f : A -> prog B) :
  assigns_no_global p -> (forall x, assigns_no_global (f x)) ->
  assigns_no_global (bind p f).
Proof.
  intros Hp Hf. induction Hp as [r | e | X c k _ IH]; cbn [bind].
  - apply Hf.
  - constructor.
  - constructor. exact IH.
Qed.

Lemma assigns_no_global_lift {A : Type} (r : exn + A) :
  assigns_no_global (lift r).
Proof. destruct r; constructor. Qed.

(** A run of such a program ends with the module-level names it started
    with, whether it returns or raises. *)
Lemma run_keeps_globals {R : Type} (p : prog R) :
  assigns_no_global p ->
  forall (g : namespace) (w : W), globals (run h p g w) = g.
Proof.
  induction 1 as [r | e | X c k _ IH]; intros g w; cbn [run globals].
  - reflexivity.
  - reflexivity.
  - destruct (h X c w) as [[e | x] w']; cbn [globals log]; [reflexivity |].
    apply IH.
Qed.

End Globals.

Lemma body_assigns_no_global (d : driver)
    (nu E load Lx Ly Lcrack lc refinement_ratio dist_min dist_max
     verbosity delta_L : Q) :
  assigns_no_global
    (body d nu E load Lx Ly Lcrack lc refinement_ratio dist_min dist_max
       verbosity delta_L).
Proof.
  destruct d; unfold_driver.
  all: repeat first
         [ apply ang_ret
         | apply ang_call; intros
         | apply assigns_no_global_bind;
           [ apply assigns_no_global_lift | intros ]
         | match goal with
           | |- context [match ?x with _ => _ end] => destruct x
           end ].
Qed.

(** C9: both drivers take scalars by value and keep no state of their own.
    No path through either body rebinds a module-level name; whatever the
    framework answers, and whether the call returns or raises, the module's
    names after a call are those before it, so a second call on the same
    arguments starts from the state the first one started from. *)
Theorem no_persistent_state (d : driver) (W : Type) (h : handler W)
    (g : namespace) (w : W)
    (nu E load Lx Ly Lcrack lc refinement_ratio dist_min dist_max
     verbosity delta_L : Q) :
  let p := body d nu E load Lx Ly Lcrack lc refinement_ratio dist_min
             dist_max verbosity delta_L in
  let first_call := run h p g w in
  let second_call := run h p (globals first_call) (world first_call) in
  assigns_no_global p
  /\ globals first_call = g
  /\ globals second_call = g.
Proof.
  cbv zeta.
  pose proof (body_assigns_no_global d nu E load Lx Ly Lcrack lc
                refinement_ratio dist_min dist_max verbosity delta_L) as Hp.
  split; [exact Hp | split].
  - by apply run_keeps_globals.
  - by rewrite !run_keeps_globals.
Qed.

(** A rebinding of a module-level name would be seen by the next call. *)
Example global_assign_is_seen :
  globals (run mock.healthy (GlobalAssign "np" "jax.numpy" (Ret tt))
             module_globals mock.init) !! "np"
  = Some "jax.numpy"
  /\ module_globals !! "np" = Some "numpy".
Proof. split; reflexivity. Qed.

(** C10: the bilinear form of both drivers is symmetric.  For all fields
    [u] and [v], on every quadrature rule, [a(u, v)] and [a(v, u)] assemble
    to the same number (or are both undefined); at every point the stress
    [sigma(eps(u))] is a symmetric matrix and the constitutive law is
    self-adjoint for the contraction with strains. *)
Theorem bilinear_form_symmetric (quad : ufl.Measure -> sem.rule)
    (mu lmbda : Q) (dx : ufl.Measure) (u v : ufl.Expr) :
  sem.same (sem.assemble quad (Devoir.a mu lmbda dx u v))
           (sem.assemble quad (Devoir.a mu lmbda dx v u))
  /\ sem.same (sem.assemble quad (DevoirForce.a mu lmbda dx u v))
              (sem.assemble quad (DevoirForce.a mu lmbda dx v u))
  /\ forall rho : sem.fields,
       sem.scalar_same
         (sem.eval rho (ufl.inner (Devoir.sigma mu lmbda (Devoir.eps u))
                          (Devoir.eps v)))
         (sem.eval rho (ufl.inner (Devoir.sigma mu lmbda (Devoir.eps v))
                          (Devoir.eps u)))
       /\ match sem.eval rho (Devoir.sigma mu lmbda (Devoir.eps u)) with
          | Some (sem.Matrix _ xy yx _) => xy == yx
          | Some _ => False
          | None => sem.grad_at rho u = None
          end.
Proof.
  split; [| split].
  - apply integrate_same. intros rho. apply stress_strain_symmetric.
  - apply integrate_same. intros rho. apply stress_strain_symmetric.
  - intros rho. split; [apply stress_strain_symmetric |].
    unfold Devoir.sigma, Devoir.eps, ufl.sym, ufl.grad, ufl.tr.
    cbn [sem.eval].
    destruct u; cbn; try reflexivity; field.
Qed.

(** The form on two different fields, seen from both sides. *)
Example bilinear_form_symmetric_at_a_point :
  let rho := {| sem.trial := fun _ => sem.Jet 0 0 1 2 3 4;
                sem.test := fun _ => sem.Jet 0 0 5 (-1) 7 2;
                sem.coefficient := fun _ => sem.Jet 0 0 0 0 0 0 |} in
  let quad := fun _ : ufl.Measure => [(1 # 2, rho)] in
  let V := FunctionSpaceRef 0 in
  let dx := volume_measure (MeshRef 0) in
  Qred <$> sem.assemble quad
             (Devoir.a 3 5 dx (ufl.TrialFunction V) (ufl.TestFunction V))
  = Some (343 # 2)
  /\ Qred <$> sem.assemble quad
                (Devoir.a 3 5 dx (ufl.TestFunction V) (ufl.TrialFunction V))
     = Some (343 # 2).
Proof. split; reflexivity. Qed.

(** * Further properties of the code *)

(** ** The markers at the edges *)

Lemma lookup_map_Some {A B : Type} (f : A -> B) (l : list A) (i : nat) (b : B) :
  map f l !! i = Some b -> exists a, l !! i = Some a /\ b = f a.
Proof.
  rewrite lookup_map. destruct (l !! i) as [a|]; cbn; [| discriminate].
  intros [= <-]. by exists a.
Qed.

(** X1: a marker answers once per point.  On a coordinate array whose rows
    have [n] entries, [bottom_no_crack] and [top] of either driver return [n]
    booleans. *)
Theorem markers_answer_per_point (Lcrack Ly : Q) (x : coords) (n : nat) :
  length (row0 x) = n ->
  length (row1 x) = n ->
  length (Devoir.bottom_no_crack Lcrack x) = n
  /\ length (Devoir.top Ly x) = n
  /\ length (DevoirForce.bottom_no_crack Lcrack x) = n
  /\ length (DevoirForce.top Ly x) = n.
Proof.
  intros H0 H1.
  assert (Hb : length (Devoir.bottom_no_crack Lcrack x) = n).
  { unfold Devoir.bottom_no_crack, logical_and, isclose, np_gt.
    rewrite length_zip_with, !length_map, H0, H1. lia. }
  assert (Ht : length (Devoir.top Ly x) = n).
  { unfold Devoir.top, isclose. by rewrite length_map. }
  repeat split; assumption.
Qed.

Lemma markers_answer_per_point_witness :
  length (Devoir.bottom_no_crack (10 / 1000)
            (mock.boundary (10 / 100) (45 / 2 / 100) (10 / 1000))) = 5%nat.
Proof.
  apply (markers_answer_per_point (10 / 1000) (45 / 2 / 100)
           (mock.boundary (10 / 100) (45 / 2 / 100) (10 / 1000)) 5);
    reflexivity.
Defined.

(** X2: the lips of the crack are left free.  A point with [x0 <= Lcrack]
    is never marked by [bottom_no_crack], whatever its height; the crack
    tip [x0 = Lcrack] itself is not marked. *)
Theorem crack_lips_are_free (Lcrack : Q) (x : coords) (i : nat) (x0 : Q) :
  row0 x !! i = Some x0 ->
  x0 <= Lcrack ->
  Devoir.bottom_no_crack Lcrack x !! i <> Some true
  /\ DevoirForce.bottom_no_crack Lcrack x !! i <> Some true.
Proof.
  intros H0 Hx.
  assert (Hb : Devoir.bottom_no_crack Lcrack x !! i <> Some true).
  { unfold Devoir.bottom_no_crack, logical_and, isclose, np_gt.
    rewrite lookup_zip_with, !lookup_map, H0.
    destruct (row1 x !! i) as [x1|]; cbn; [| discriminate].
    intros [= [_ Hgt]%andb_true_iff]. apply gt_spec in Hgt.
    by apply Qlt_not_le in Hgt. }
  split; exact Hb.
Qed.

Lemma crack_lips_are_free_witness :
  Devoir.bottom_no_crack (10 / 1000)
    (mock.boundary (10 / 100) (45 / 2 / 100) (10 / 1000)) !! 0%nat
  <> Some true.
Proof.
  apply (crack_lips_are_free (10 / 1000)
           (mock.boundary (10 / 100) (45 / 2 / 100) (10 / 1000)) 0
           (10 / 1000 / 2)); [reflexivity | discriminate].
Defined.



(** X4: on a specimen of height zero the two markers collapse.  When
    [Ly = 0], every point marked by [bottom_no_crack] is also marked by
    [top]. *)
Theorem flat_specimen_markers_overlap (Lcrack Ly : Q) (x : coords) (i : nat) :
  Ly == 0 ->
  Devoir.bottom_no_crack Lcrack x !! i = Some true ->
  Devoir.top Ly x !! i = Some true.
Proof.
  intros Hly. unfold Devoir.bottom_no_crack, Devoir.top, logical_and.
  rewrite lookup_zip_with.
  destruct (isclose (row1 x) 0 !! i) as [b|] eqn:Hb; cbn; [| discriminate].
  destruct (np_gt (row0 x) Lcrack !! i) as [c|]; cbn; [| discriminate].
  intros [= [-> _]%andb_true_iff].
  unfold isclose in Hb |- * . apply lookup_map_Some in Hb as (x1 & Hx1 & Hc).
  rewrite lookup_map, Hx1. cbn. f_equal.
  symmetry in Hc. apply isclose1_zero in Hc. apply isclose1_spec.
  assert (Qabs (x1 - Ly) == Qabs x1) as ->.
  { apply Qabs_wd. rewrite Hly. ring. }
  assert (Qabs Ly == 0) as -> by (rewrite Hly; reflexivity).
  unfold atol, rtol in Hc |- * . lra.
Qed.

Lemma flat_specimen_markers_overlap_witness :
  Devoir.top 0 (mock.boundary (10 / 100) 0 (10 / 1000)) !! 1%nat = Some true.
Proof.
  apply (flat_specimen_markers_overlap (10 / 1000) 0
           (mock.boundary (10 / 100) 0 (10 / 1000)) 1);
    reflexivity.
Defined.

(** ** The material constants as the code computes them *)



(** For a positive modulus and a ratio strictly between [-1] and [1/2]
    both divisions succeed, the shear modulus is positive and so is
    [lmbda + mu]. *)
Lemma admissible_material (E nu : Q) :
  0 < E -> -1 < nu -> nu < 1 # 2 ->
  exists mu lmbda,
    py_div E (2 * (1 + nu)) = inr mu
    /\ py_div (E * nu) ((1 + nu) * (1 - 2 * nu)) = inr lmbda
    /\ 0 < mu /\ 0 < lmbda + mu.
Proof.
  intros HE Hlo Hhi.
  assert (Hp1 : 0 < 1 + nu) by lra.
  assert (Hp2 : 0 < 1 - 2 * nu) by lra.
  assert (Hp : 0 < (1 + nu) * (1 - 2 * nu)) by (by apply Qmult_lt_0_compat).
  assert (Hd1 : Qeq_bool (2 * (1 + nu)) 0 = false).
  { apply not_true_iff_false. intros H%Qeq_bool_iff. lra. }
  assert (Hd2 : Qeq_bool ((1 + nu) * (1 - 2 * nu)) 0 = false).
  { apply not_true_iff_false. intros H%Qeq_bool_iff. lra. }
  unfold py_div. rewrite Hd1, Hd2. eexists _, _.
  split; [reflexivity | split; [reflexivity | split]].
  - apply Qlt_shift_div_l; lra.
  - assert (E * nu / ((1 + nu) * (1 - 2 * nu)) + E / (2 * (1 + nu))
            == E / (2 * ((1 + nu) * (1 - 2 * nu)))) as ->.
    { field. split; lra. }
    apply Qlt_shift_div_l; lra.
Qed.

(** ** The assembled forms *)

Section Assembly.

Import sem.

(** The integrand of the bilinear form on two fields with known gradients
    is the elastic density of their strains. *)
Lemma stress_strain_density_of (rho : fields) (mu lmbda : Q)
    (u v : ufl.Expr) (ju jv : jet) :
  grad_at rho u = Some (gradient_of ju) ->
  grad_at rho v = Some (gradient_of jv) ->
  scalar_same
    (eval rho (ufl.inner (Devoir.sigma mu lmbda (Devoir.eps u))
                 (Devoir.eps v)))
    (Some (Scalar (elastic_density mu lmbda ju jv))).
Proof.
  intros Hu Hv.
  unfold Devoir.sigma, Devoir.eps, ufl.inner, ufl.sym, ufl.grad, ufl.tr.
  cbn [eval]. rewrite Hu, Hv. cbn.
  unfold elastic_density, e_xx, e_xy, e_yy. field.
Qed.

(** An integrand with a known scalar value at the points of the rule
    integrates to its weighted sum. *)
Lemma integrate_scalar_on (pts : rule) (e : ufl.Expr) (f : fields -> Q) :
  Forall (fun p => scalar_same (eval p.2 e) (Some (Scalar (f p.2)))) pts ->
  same (integrate pts e) (Some (weighted_sum pts f)).
Proof.
  induction 1 as [|[w rho] pts Hpt _ IH]; cbn [integrate weighted_sum].
  - constructor. reflexivity.
  - cbn in Hpt. unfold scalar_same in Hpt.
    destruct (eval rho e) as [[a | |]|]; try contradiction.
    inversion IH as [x y Hxy Hx Hy|]; subst. constructor.
    rewrite Hpt, Hxy. reflexivity.
Qed.

Lemma weighted_sum_zero (pts : rule) (f : fields -> Q) :
  Forall (fun p => f p.2 == 0) pts -> weighted_sum pts f == 0.
Proof.
  induction 1 as [|[w rho] pts Hpt _ IH]; cbn [weighted_sum]; [reflexivity |].
  cbn in Hpt. rewrite Hpt, IH. ring.
Qed.

Lemma weighted_sum_nonneg (pts : rule) (f : fields -> Q) :
  Forall (fun p => 0 <= p.1 /\ 0 <= f p.2) pts -> 0 <= weighted_sum pts f.
Proof.
  induction 1 as [|[w rho] pts [Hw Hf] _ IH]; cbn [weighted_sum]; [lra |].
  cbn in Hw, Hf. pose proof (Qmult_le_0_compat _ _ Hw Hf). lra.
Qed.

Lemma weighted_sum_scale (pts : rule) (c : Q) (f : fields -> Q) :
  weighted_sum pts (fun rho => c * f rho) == c * weighted_sum pts f.
Proof.
  induction pts as [|[w rho] pts IH]; cbn [weighted_sum]; [ring |].
  rewrite IH. ring.
Qed.

Lemma weighted_sum_ext (pts : rule) (f f' : fields -> Q) :
  (forall rho, f rho == f' rho) -> weighted_sum pts f == weighted_sum pts f'.
Proof.
  intros Hf. induction pts as [|[w rho] pts IH]; cbn [weighted_sum];
    [reflexivity |].
  rewrite IH, (Hf rho). reflexivity.
Qed.

Lemma square_nonneg (x : Q) : 0 <= x * x.
Proof.
  unfold Qle, Qmult; cbn. rewrite Z.mul_1_r. apply Z.square_nonneg.
Qed.

(** The elastic density of a strain with itself is a sum of squares with
    the weights [mu] and [lmbda + mu]. *)
Lemma elastic_density_nonneg (mu lmbda : Q) (j : jet) :
  0 <= mu -> 0 <= lmbda + mu -> 0 <= elastic_density mu lmbda j j.
Proof.
  intros Hmu Hsum. unfold elastic_density.
  set (a := e_xx j). set (b := e_xy j). set (c := e_yy j).
  assert (2 * mu * (a * a + 2 * (b * b) + c * c)
          + lmbda * ((a + c) * (a + c))
          == mu * ((a - c) * (a - c)) + 4 * mu * (b * b)
             + (lmbda + mu) * ((a + c) * (a + c))) as -> by ring.
  pose proof (Qmult_le_0_compat _ _ Hmu (square_nonneg (a - c))).
  pose proof (Qmult_le_0_compat _ _ Hmu (square_nonneg b)).
  pose proof (Qmult_le_0_compat _ _ Hsum (square_nonneg (a + c))).
  lra.
Qed.

End Assembly.

Section AssembledForms.

Import sem.

Lemma same_value (x : option Q) (a b : Q) :
  same x (Some a) -> a == b -> same x (Some b).
Proof.
  intros H Hab. inversion H as [y z Hyz|]; subst. constructor.
  by rewrite Hyz.
Qed.

Lemma same_Some (x : option Q) (a : Q) :
  same x (Some a) -> exists s, x = Some s /\ s == a.
Proof. intros H. inversion H as [y z Hyz|]; subst. by exists y. Qed.

(** X6: rigid motions have no stiffness.  For a displacement [f] whose
    strain vanishes at every point of the volume rule (a translation, or an
    infinitesimal rotation), [a(f, v)], [a(v, f)] and [a(f, f)] assemble to
    zero for the test function [v] of any space. *)
Theorem rigid_motions_have_no_stiffness (quad : ufl.Measure -> rule)
    (mu lmbda : Q) (dx : ufl.Measure) (f : FEFunction) (V : FunctionSpace) :
  Forall (fun p => d_xx (coefficient p.2 f) == 0
                   /\ d_yy (coefficient p.2 f) == 0
                   /\ d_xy (coefficient p.2 f) + d_yx (coefficient p.2 f) == 0)
    (quad dx) ->
  same (assemble quad (Devoir.a mu lmbda dx f (ufl.TestFunction V))) (Some 0)
  /\ same (assemble quad (Devoir.a mu lmbda dx (ufl.TestFunction V) f))
          (Some 0)
  /\ same (assemble quad (Devoir.a mu lmbda dx f f)) (Some 0).
Proof.
  intros Hrigid.
  assert (Hzero : forall (other : fields -> jet) (swap : bool),
             Forall (fun p =>
                       (if swap
                        then elastic_density mu lmbda (other p.2)
                               (coefficient p.2 f)
                        else elastic_density mu lmbda (coefficient p.2 f)
                               (other p.2)) == 0)
               (quad dx)).
  { intros other swap. eapply Forall_impl; [exact Hrigid |].
    intros [w rho] (Hxx & Hyy & Hxy); cbn in Hxx, Hyy, Hxy |- * .
    assert (Hexy : e_xy (coefficient rho f) == 0).
    { unfold e_xy. rewrite Hxy. reflexivity. }
    destruct swap; unfold elastic_density;
      fold (e_xy (coefficient rho f));
      unfold e_xx, e_yy; rewrite Hxx, Hyy, Hexy; ring. }
  split; [| split]; cbn [assemble Devoir.a].
  - eapply same_value.
    + apply integrate_scalar_on
        with (f := fun rho => elastic_density mu lmbda (coefficient rho f)
                                (test rho V)).
      apply Forall_forall. intros p _.
      by apply stress_strain_density_of.
    + apply weighted_sum_zero. exact (Hzero (fun rho => test rho V) false).
  - eapply same_value.
    + apply integrate_scalar_on
        with (f := fun rho => elastic_density mu lmbda (test rho V)
                                (coefficient rho f)).
      apply Forall_forall. intros p _.
      by apply stress_strain_density_of.
    + apply weighted_sum_zero. exact (Hzero (fun rho => test rho V) true).
  - eapply same_value.
    + apply integrate_scalar_on
        with (f := fun rho => elastic_density mu lmbda (coefficient rho f)
                                (coefficient rho f)).
      apply Forall_forall. intros p _.
      by apply stress_strain_density_of.
    + apply weighted_sum_zero.
      exact (Hzero (fun rho => coefficient rho f) false).
Qed.

End AssembledForms.

Section Energies.

Import sem.

(** An infinitesimal rotation about the origin, seen at one point. *)
Lemma rigid_motions_have_no_stiffness_witness :
  let rho := {| trial := fun _ => Jet 0 0 0 0 0 0;
                test := fun _ => Jet 0 0 5 (-1) 7 2;
                coefficient := fun _ => Jet (-2) 1 0 (-1) 1 0 |} in
  same (assemble (fun _ => [(1 # 2, rho)])
          (Devoir.a 3 5 (volume_measure (MeshRef 0)) (FEFunctionRef 0)
             (ufl.TestFunction (FunctionSpaceRef 0))))
       (Some 0).
Proof.
  cbv zeta.
  apply (rigid_motions_have_no_stiffness
           (fun _ => [(1 # 2,
                       {| trial := fun _ => Jet 0 0 0 0 0 0;
                          test := fun _ => Jet 0 0 5 (-1) 7 2;
                          coefficient := fun _ => Jet (-2) 1 0 (-1) 1 0 |})])
           3 5 (volume_measure (MeshRef 0)) (FEFunctionRef 0)
           (FunctionSpaceRef 0)).
  constructor; [| constructor].
  split; [reflexivity | split; reflexivity].
Defined.



(** On a field with a known value at every point, the linear form is the
    load times the weighted sum of the second component over the tagged
    boundary. *)
Lemma load_form_on_field (quad : ufl.Measure -> rule) (msh : Mesh) (load : Q)
    (dx ds : ufl.Measure) (v : ufl.Expr) (j : fields -> jet) :
  (forall rho, eval rho v = Some (value_of (j rho))) ->
  same (assemble quad (Devoir.L msh load dx ds v))
       (Some (load * weighted_sum (quad (ufl.restrict ds 1))
                       (fun rho => val_y (j rho)))).
Proof.
  intros Hv. cbn [assemble Devoir.L].
  set (body := fun rho => 0 * val_x (j rho) + 0 * val_y (j rho)).
  set (traction := fun rho => 0 * val_x (j rho) + load * val_y (j rho)).
  apply same_value
    with (a := weighted_sum (quad dx) body
               + weighted_sum (quad (ufl.restrict ds 1)) traction).
  - apply (same_plus _ (Some (weighted_sum (quad dx) body)) _
             (Some (weighted_sum (quad (ufl.restrict ds 1)) traction)));
      apply integrate_scalar_on; apply Forall_forall; intros p _;
      cbn; rewrite Hv; cbn; reflexivity.
  - rewrite weighted_sum_zero
      by (apply Forall_forall; intros p _; unfold body; ring).
    rewrite <- weighted_sum_scale.
    rewrite Qplus_0_l. apply weighted_sum_ext. intros rho.
    unfold traction. ring.
Qed.

(** X8: the linear form is the load times the integral of the second
    component over the tagged boundary.  The volume force [(0, 0)]
    contributes nothing: whatever the volume rule, [L(v)] assembles to
    [load] times the weighted sum of [v_y] over the rule of [ds(1)], for
    the test function and for a finite-element function alike. *)
Theorem load_form_value (quad : ufl.Measure -> rule) (msh : Mesh) (load : Q)
    (dx ds : ufl.Measure) (V : FunctionSpace) (uh : FEFunction) :
  same (assemble quad (Devoir.L msh load dx ds (ufl.TestFunction V)))
       (Some (load * weighted_sum (quad (ufl.restrict ds 1))
                       (fun rho => val_y (test rho V))))
  /\ same (assemble quad (Devoir.L msh load dx ds uh))
          (Some (load * weighted_sum (quad (ufl.restrict ds 1))
                          (fun rho => val_y (coefficient rho uh))))
  /\ same (assemble quad (DevoirForce.L msh load dx ds uh))
          (Some (load * weighted_sum (quad (ufl.restrict ds 1))
                          (fun rho => val_y (coefficient rho uh)))).
Proof.
  split; [| split].
  - by apply (load_form_on_field quad msh load dx ds _
                (fun rho => test rho V)).
  - by apply (load_form_on_field quad msh load dx ds _
                (fun rho => coefficient rho uh)).
  - by apply (load_form_on_field quad msh load dx ds _
                (fun rho => coefficient rho uh)).
Qed.

(** X9: without load the potential energy is half the strain energy.  When
    [load = 0], the form [0.5 * a(uh, uh) - L(uh)] that the drivers compile
    assembles to half of what [a(uh, uh)] assembles to. *)
Theorem unloaded_energy_is_half_strain_energy (quad : ufl.Measure -> rule)
    (msh : Mesh) (mu lmbda load : Q) (dx ds : ufl.Measure)
    (uh : FEFunction) :
  load == 0 ->
  same (assemble quad
          ((1 # 2) *. Devoir.a mu lmbda dx uh uh
           - Devoir.L msh load dx ds uh)%form)
       (Qmult (1 # 2) <$> assemble quad (Devoir.a mu lmbda dx uh uh)).
Proof.
  intros Hload.
  pose proof (load_form_on_field quad msh load dx ds uh
                (fun rho => coefficient rho uh) (fun rho => eq_refl)) as HL.
  apply same_Some in HL as (l & Hl & Hval).
  cbn [assemble]. rewrite Hl.
  destruct (assemble quad (Devoir.a mu lmbda dx uh uh)) as [x|]; cbn;
    constructor.
  rewrite Hval, Hload. ring.
Qed.

Lemma unloaded_energy_is_half_strain_energy_witness :
  same (assemble mock.quad
          ((1 # 2) *. Devoir.a 3 5 (volume_measure (MeshRef 0))
                        (FEFunctionRef 5) (FEFunctionRef 5)
           - Devoir.L (MeshRef 0) 0 (volume_measure (MeshRef 0))
               (tagged_boundary_measure (MeshRef 0) [3%nat])
               (FEFunctionRef 5))%form)
       (Qmult (1 # 2)
          <$> assemble mock.quad
                (Devoir.a 3 5 (volume_measure (MeshRef 0)) (FEFunctionRef 5)
                   (FEFunctionRef 5))).
Proof.
  apply (unloaded_energy_is_half_strain_energy mock.quad (MeshRef 0) 3 5 0).
  reflexivity.
Defined.

End Energies.

(** ** More on the runs of the drivers *)

(** A list of calls that all succeeded has no failed call in it. *)
Ltac failed_call_among H :=
  first [ discriminate (List.Forall_inv H)
        | apply List.Forall_inv_tail in H; failed_call_among H ].

(** X10: only the second component is ever constrained.  In every run of
    either driver, each Dirichlet condition handed to a linear problem is
    on [V.sub(1)] of the function space created on the generated mesh, and
    the first of them is the bottom condition with value [0]. *)
Theorem only_second_component_constrained (d : driver) (W : Type)
    (h : handler W) (g : namespace) (w : W)
    (nu E load Lx Ly Lcrack lc refinement_ratio dist_min dist_max
     verbosity delta_L : Q) :
  let r := run h (body d nu E load Lx Ly Lcrack lc refinement_ratio dist_min
                    dist_max verbosity delta_L) g w in
  Forall (fun c => forall bcs, conditions_of c = Some bcs ->
            exists l : located,
              take 10 (trace r)
              = location_calls Lx Ly Lcrack lc refinement_ratio dist_min
                  dist_max verbosity l
              /\ Forall (fun bc => bc_space bc = SubSpace (the_space l) 1) bcs
              /\ bcs !! 0%nat = Some (bottom_condition l))
    (trace r).
Proof.
  cbv zeta. destruct d; unfold_driver; same_closures.
  all: repeat (run_step h;
         [ by each_entry
                ltac:(intros ? [= <-]; some_located;
                      split; [reflexivity
                             | split; [by repeat constructor | reflexivity]])
         | ]).
  all: by each_entry
            ltac:(intros ? [= <-]; some_located;
                  split; [reflexivity
                         | split; [by repeat constructor | reflexivity]]).
Qed.



(** X12: the third component of the result is the stress of the returned
    displacement.  Whenever a driver returns [(uh, energy, sigma_ufl)],
    [sigma_ufl] is [sigma(eps(uh))] with the constants of the run, and at
    every point its value is the symmetric matrix
    [2 mu eps(uh) + lmbda tr(eps(uh)) I]. *)
Theorem returned_stress (d : driver) (W : Type) (h : handler W)
    (g : namespace) (w : W)
    (nu E load Lx Ly Lcrack lc refinement_ratio dist_min dist_max
     verbosity delta_L : Q)
    (uh : FEFunction) (energy : Q) (sigma_ufl : ufl.Expr) :
  let r := run h (body d nu E load Lx Ly Lcrack lc refinement_ratio dist_min
                    dist_max verbosity delta_L) g w in
  let mu := E / (2 * (1 + nu)) in
  let lmbda := E * nu / ((1 + nu) * (1 - 2 * nu)) in
  outcome r = inr (uh, energy, sigma_ufl) ->
  sigma_ufl = Devoir.sigma mu lmbda (Devoir.eps uh)
  /\ forall rho : sem.fields,
       let j := sem.coefficient rho uh in
       exists xx xy yx yy,
         sem.eval rho sigma_ufl = Some (sem.Matrix xx xy yx yy)
         /\ xx == 2 * mu * sem.e_xx j + lmbda * (sem.e_xx j + sem.e_yy j)
         /\ xy == 2 * mu * sem.e_xy j
         /\ yx == 2 * mu * sem.e_xy j
         /\ yy == 2 * mu * sem.e_yy j + lmbda * (sem.e_xx j + sem.e_yy j).
Proof.
  cbv zeta. destruct d; unfold_driver; same_closures.
  all: repeat (run_step h; [ intros [=] | ]).
  all: intros [= <- <- <-]; split; [reflexivity |];
    generalize (E / (2 * (1 + nu))),
               (E * nu / ((1 + nu) * (1 - 2 * nu)));
    intros mu lmbda rho; eexists _, _, _, _; split; [reflexivity |];
    unfold sem.e_xx, sem.e_xy, sem.e_yy; cbn;
    (split; [field | split; [field | split; field]]).
Qed.

Lemma returned_stress_witness :
  let mu := 3000000000 / (2 * (1 + (4 # 10))) in
  let lmbda :=
    3000000000 * (4 # 10) / ((1 + (4 # 10)) * (1 - 2 * (4 # 10))) in
  let j := sem.coefficient mock.stretch (FEFunctionRef 5) in
  exists xx xy yx yy,
    sem.eval mock.stretch (Devoir.sigma mu lmbda (Devoir.eps (FEFunctionRef 5)))
    = Some (sem.Matrix xx xy yx yy)
    /\ xx == 2 * mu * sem.e_xx j + lmbda * (sem.e_xx j + sem.e_yy j)
    /\ xy == 2 * mu * sem.e_xy j
    /\ yx == 2 * mu * sem.e_xy j
    /\ yy == 2 * mu * sem.e_yy j + lmbda * (sem.e_xx j + sem.e_yy j).
Proof.
  exact (proj2 (returned_stress devoir mock.state mock.healthy module_globals
                  mock.init (4 # 10) 3000000000 0 (10 / 100) (45 / 2 / 100)
                  (10 / 1000) (9 # 1000) 10 (3 # 100) (5 # 100) 10
                  (700 * (1 # 1000000)) (FEFunctionRef 5) (22500000000 # 7)
                  _ eq_refl)
           mock.stretch).
Defined.

(** X13: the mesh parameters reach nothing but the mesh generator.  If the
    generator gives the same answer, and leaves the same state, for two
    values of [Lx], [lc], [refinement_ratio], [dist_min], [dist_max] and
    [verbosity], the two runs have the same outcome, end in the same state
    and make the same calls after the first. *)
Theorem mesh_parameters_reach_only_the_generator (d : driver) (W : Type)
    (h : handler W) (g : namespace) (w : W)
    (nu E load Ly Lcrack delta_L : Q)
    (Lx lc refinement_ratio dist_min dist_max verbosity : Q)
    (Lx' lc' refinement_ratio' dist_min' dist_max' verbosity' : Q) :
  h _ (GenerateMeshWithCrack Lcrack Lx Ly lc refinement_ratio dist_min
         dist_max verbosity) w
  = h _ (GenerateMeshWithCrack Lcrack Lx' Ly lc' refinement_ratio' dist_min'
           dist_max' verbosity') w ->
  let r := run h (body d nu E load Lx Ly Lcrack lc refinement_ratio dist_min
                    dist_max verbosity delta_L) g w in
  let r' := run h (body d nu E load Lx' Ly Lcrack lc' refinement_ratio'
                     dist_min' dist_max' verbosity' delta_L) g w in
  outcome r = outcome r'
  /\ world r = world r'
  /\ globals r = globals r'
  /\ tail (trace r) = tail (trace r').
Proof.
  intros Hgen. cbv zeta. destruct d; unfold_driver; run_simpl.
  all: rewrite Hgen; run_step h; repeat split; reflexivity.
Qed.

Lemma mesh_parameters_reach_only_the_generator_witness :
  outcome (run mock.healthy (with_defaults devoir) module_globals mock.init)
  = outcome (run mock.healthy
               (body devoir (4 # 10) 3000000000 0 (10 / 100) (45 / 2 / 100)
                  (10 / 1000) (1 # 1000) 20 (1 # 100) (2 # 100) 0
                  (default_delta_L devoir))
               module_globals mock.init).
Proof.
  apply (mesh_parameters_reach_only_the_generator devoir mock.state
           mock.healthy module_globals mock.init (4 # 10) 3000000000 0
           (45 / 2 / 100) (10 / 1000) (default_delta_L devoir)
           (10 / 100) (9 # 1000) 10 (3 # 100) (5 # 100) 10
           (10 / 100) (1 # 1000) 20 (1 # 100) (2 # 100) 0).
  reflexivity.
Defined.




Ltac twice_located :=
  let H6 := fresh "H6" in
  let H7 := fresh "H7" in
  let H10 := fresh "H10" in
  intros H6 H7 H10;
  cbn [lookup list_lookup mbind option_bind dimension_answer entry_call
       entry_outcome] in H6, H7, H10;
  first [ discriminate H6 | discriminate H7 | discriminate H10
        | injection H6 as ->; injection H7 as <-; injection H10 as <-;
          split; [reflexivity | by eexists] ].

(** X16: on a two-dimensional mesh the top is located twice by the same
    call.  If the framework answers [2] to the third question about the
    dimension, the call that locates the facets to tag for the load has the
    mesh, the dimension and the marker of the call that located the top
    facets for the Dirichlet condition. *)
Theorem top_located_twice (d : driver) (W : Type) (h : handler W)
    (g : namespace) (w : W)
    (nu E load Lx Ly Lcrack lc refinement_ratio dist_min dist_max
     verbosity delta_L : Q) (c c' : entry) :
  let r := run h (body d nu E load Lx Ly Lcrack lc refinement_ratio dist_min
                    dist_max verbosity delta_L) g w in
  trace r !! 6%nat ≫= dimension_answer = Some 2%Z ->
  trace r !! 7%nat = Some c ->
  trace r !! 10%nat = Some c' ->
  location_request_of c = location_request_of c'
  /\ exists msh, location_request_of c' = Some (msh, 1%Z, Devoir.top Ly).
Proof.
  cbv zeta. destruct d; unfold_driver; same_closures.
  all: repeat (run_step h; [ twice_located | ]).
  all: twice_located.
Qed.

Lemma top_located_twice_witness :
  exists msh,
    trace (run mock.healthy (with_defaults devoir) module_globals mock.init)
      !! 10%nat ≫= location_request_of
    = Some (msh, 1%Z, Devoir.top (45 / 2 / 100)).
Proof.
  destruct (top_located_twice devoir mock.state mock.healthy module_globals
              mock.init (4 # 10) 3000000000 0 (10 / 100) (45 / 2 / 100)
              (10 / 1000) (9 # 1000) 10 (3 # 100) (5 # 100) 10
              (700 * (1 # 1000000))
              (Entry (LocateEntitiesBoundary (MeshRef 0) 1
                        (Devoir.top (45 / 2 / 100)))
                 (inr [3%nat]))
              (Entry (LocateEntitiesBoundary (MeshRef 0) 1
                        (fun x => isclose (row1 x) (45 / 2 / 100)))
                 (inr [3%nat])))
    as [_ [msh Hmsh]]; [reflexivity | reflexivity | reflexivity |].
  exists msh. exact Hmsh.
Defined.
